(** * SwarmSpawner: a JupyterHub spawner on Docker Swarm services

    Shallow embedding of [src/dockerspawner/spawners.py]: the configuration
    merge ([_update_config]), the construction of the service configuration
    ([get_service_config], [_format_mount]), the lookup, start, stop and poll
    methods of [SwarmSpawner] and its readiness loop
    ([wait_for_running_tasks]).

    Python objects that the code only reads or rebuilds are values; the
    dictionaries that sit inside lists (the mount descriptors) keep their
    identity through the merge and are written to in place, so they live in a
    store and are named by references. *)

From Stdlib Require Import PrimFloat.
From stdpp Require Import base numbers strings list.

Open Scope string_scope.
Open Scope list_scope.
Set Warnings "-register-all".

(** ** Exceptions and results *)

Inductive exn :=
| NotFound (status : option Z)      (* docker.errors.NotFound, a subclass of APIError *)
| APIError (status : option Z)      (* any other docker.errors.APIError *)
| AssertionError
| NameError (name : string)
| AttributeError (attr : string)
| KeyError (key : string)
| TypeError (what : string)
| ValueError (what : string)
| OtherError (what : string).       (* anything else a remote call may raise *)

Inductive res (A : Type) :=
| Ok (a : A)
| Err (e : exn).
Arguments Ok {A} a.
Arguments Err {A} e.

Definition res_bind {A B} (m : res A) (k : A -> res B) : res B :=
  match m with
  | Ok a => k a
  | Err e => Err e
  end.

Notation "'let?' x ':=' m 'in' k" := (res_bind m (fun x => k))
  (at level 10, x name, m at level 100, k at level 200).

(** ** Python values *)

Definition loc := nat.
Definition path := list string.

(** Values that [flatten] does not descend into.  A dictionary held inside a
    list is a reference into the store. *)
Inductive pyval :=
| PNone
| PBool (b : bool)
| PInt (n : Z)
| PFloat (x : float)
| PStr (s : string)
| PList (xs : list pyval)
| PRef (l : loc).

(** A nested mapping: a dictionary that is the value of a key is a [Node];
    [flatten] walks it and [unflatten] builds a new one. *)
Inductive tree :=
| Leaf (v : pyval)
| Node (items : list (string * tree)).

Abbreviation dict := (list (string * tree)).
Abbreviation flat := (list (path * pyval)).

Definition is_list (v : pyval) : bool :=
  match v with
  | PList _ => true
  | _ => false
  end.

(** Insertion-ordered dictionaries: association lists in which a key is
    looked up and overwritten at its first occurrence and a new key is
    appended. *)
Section assoc.
Context {K V : Type} `{EqDecision K}.

Fixpoint assoc_get (k : K) (m : list (K * V)) : option V :=
  match m with
  | [] => None
  | (k', v) :: m' => if decide (k = k') then Some v else assoc_get k m'
  end.

Fixpoint assoc_set (k : K) (v : V) (m : list (K * V)) : list (K * V) :=
  match m with
  | [] => [(k, v)]
  | (k', v') :: m' =>
      if decide (k = k') then (k, v) :: m' else (k', v') :: assoc_set k v m'
  end.

Definition assoc_mem (k : K) (m : list (K * V)) : bool :=
  match assoc_get k m with
  | Some _ => true
  | None => false
  end.
End assoc.

(** ** flatten and unflatten (package flatten_dict, tuple reducer) *)

(** [flatten] walks the items of a mapping in order; a value that is itself a
    mapping is walked with the extended key, any other value becomes an item
    of the flat dictionary.  An empty mapping contributes nothing. *)
Fixpoint flatten_at (parent : path) (t : tree) : flat :=
  match t with
  | Leaf v => [(parent, v)]
  | Node items =>
      flat_map (fun '(k, t') => flatten_at (parent ++ [k]) t') items
  end.

Definition flatten_items (parent : path) (items : dict) : flat :=
  flat_map (fun '(k, t') => flatten_at (parent ++ [k]) t') items.

(** [flatten(d)] on a value that is no mapping: [d.items()] fails (later
    versions of the package refuse the argument with a ValueError first). *)
Definition flatten (t : tree) : res flat :=
  match t with
  | Node items => Ok (flatten_items [] items)
  | Leaf _ => Err (AttributeError "items")
  end.

(** [key in s] for two strings. *)
Definition contains (key s : string) : bool :=
  match String.index 0 key s with
  | Some _ => true
  | None => false
  end.
Definition is_str (key : string) (v : pyval) : bool :=
  match v with
  | PStr s => String.eqb s key
  | _ => false
  end.

(** What [nested_set_dict(u, rest, value)] raises on a value [u] that is no
    mapping: with two keys or more left, [u.setdefault] fails; with one key
    left, [key in u] or [u[key] = value] does. *)
Definition set_through_leaf (u : pyval) (rest : path) : exn :=
  match rest with
  | [key] =>
      match u with
      | PStr s =>
          if contains key s then ValueError "duplicated key"
          else TypeError "object does not support item assignment"
      | PList xs =>
          if existsb (is_str key) xs then ValueError "duplicated key"
          else TypeError "list indices must be integers"
      | _ => TypeError "argument is not iterable"
      end
  | _ => AttributeError "setdefault"
  end.

(** [nested_set_dict(d, keys, value)] of flatten_dict:
<<
    assert keys
    key = keys[0]
    if len(keys) == 1:
        if key in d: raise ValueError("duplicated key")
        d[key] = value
        return
    d = d.setdefault(key, {})
    nested_set_dict(d, keys[1:], value)
>>
    The dictionaries it writes to are the fresh ones of [unflatten]. *)
Fixpoint nested_set_dict (d : dict) (keys : path) (value : pyval) : res dict :=
  match keys with
  | [] => Err AssertionError
  | key :: rest =>
      match rest with
      | [] =>
          if assoc_mem key d then Err (ValueError "duplicated key")
          else Ok (assoc_set key (Leaf value) d)
      | _ :: _ =>
          match assoc_get key d with
          | None =>
              let? sub := nested_set_dict [] rest value in
              Ok (assoc_set key (Node sub) d)
          | Some (Node sub) =>
              let? sub' := nested_set_dict sub rest value in
              Ok (assoc_set key (Node sub') d)
          | Some (Leaf u) => Err (set_through_leaf u rest)
          end
      end
  end.

Fixpoint unflatten_into (d : dict) (f : flat) : res dict :=
  match f with
  | [] => Ok d
  | (flat_key, value) :: f' =>
      let? d' := nested_set_dict d flat_key value in
      unflatten_into d' f'
  end.

Definition unflatten (f : flat) : res dict := unflatten_into [] f.

(** ** _update_config *)

(** One turn of [for opt, val1 in update.items()]. *)
Definition update_item (config : flat) (opt : path) (val1 : pyval) : res flat :=
  if is_list val1 && assoc_mem opt config then
    match assoc_get opt config, val1 with
    | Some (PList val2), PList l1 => Ok (assoc_set opt (PList (l1 ++ val2)) config)
    | _, _ => Err AssertionError
    end
  else Ok (assoc_set opt val1 config).

Fixpoint update_items (config : flat) (update : flat) : res flat :=
  match update with
  | [] => Ok config
  | (opt, val1) :: update' =>
      let? config' := update_item config opt val1 in
      update_items config' update'
  end.

Definition _update_config (config update : tree) : res dict :=
  let? config := flatten config in
  let? update := flatten update in
  let? config := update_items config update in
  unflatten config.

(** ** Names bound at module level

    What the module's top level binds by [import], [def], [class] and
    assignment.  A name that a method uses without [self.] is resolved here
    (the builtins hold none of the names below). *)

Inductive binding :=
| BModule                      (* import m, from p import m *)
| BImported                    (* a function or class of another package *)
| BClass                       (* class C: of this module *)
| BFunction (arity : nat)      (* def f(...): of this module, all parameters required *)
| BValue (value : tree).       (* a dictionary assigned at top level *)

(** The two tables of constructors, each class standing by its name. *)
Definition _SERVICE_TYPES : dict :=
  [ ("endpoints", Leaf (PStr "EndpointSpec")); ("mode", Leaf (PStr "ServiceMode"));
    ("mounts", Leaf (PStr "Mount")); ("networks", Leaf (PStr "NetworkAttachmentConfig"));
    ("resources", Leaf (PStr "Resources")); ("restart_policy", Leaf (PStr "RestartPolicy"));
    ("secrets", Leaf (PStr "SecretReference")); ("update_config", Leaf (PStr "UpdateConfig"));
    ("roleback_config", Leaf (PStr "RollbackConfig")); ("healthcheck", Leaf (PStr "Healthcheck"));
    ("dns_config", Leaf (PStr "DNSConfig")); ("configs", Leaf (PStr "ConfigReference"));
    ("privileges", Leaf (PStr "Privileges")) ].
Definition _MOUNT_TYPES : dict := [ ("driver_config", Leaf (PStr "DriverConfig")) ].

Definition module_globals : list (string * binding) :=
  [ ("sleep", BImported); ("dedent", BImported); ("ThreadPoolExecutor", BImported);
    ("pformat", BImported); ("docker", BModule); ("APIError", BImported);
    ("NotFound", BImported); ("TLSConfig", BImported); ("EndpointSpec", BImported);
    ("ServiceMode", BImported); ("Resources", BImported); ("RestartPolicy", BImported);
    ("UpdateConfig", BImported); ("RollbackConfig", BImported); ("Healthcheck", BImported);
    ("DNSConfig", BImported); ("Privileges", BImported); ("Mount", BImported);
    ("NetworkAttachmentConfig", BImported); ("SecretReference", BImported);
    ("ConfigReference", BImported); ("DriverConfig", BImported);
    ("kwargs_from_env", BImported); ("gen", BModule); ("Spawner", BImported);
    ("default", BImported); ("Dict", BImported); ("List", BImported);
    ("Unicode", BImported); ("flatten", BImported); ("unflatten", BImported);
    ("SwarmSpawner", BClass); ("_update_config", BFunction 2);
    ("_SERVICE_TYPES", BValue (Node _SERVICE_TYPES));
    ("_MOUNT_TYPES", BValue (Node _MOUNT_TYPES));
    ("_parse_obj", BFunction 2); ("_parse_config", BFunction 2) ].

(** Evaluating a bare name. *)
Definition load_global (name : string) : res binding :=
  match assoc_get name module_globals with
  | Some b => Ok b
  | None => Err (NameError name)
  end.

(** Calling a bare name with [nargs] positional arguments, up to the point
    where the callee's body would start. *)
Definition call_global (name : string) (nargs : nat) : res unit :=
  let? b := load_global name in
  match b with
  | BFunction arity =>
      if decide (nargs = arity) then Ok tt
      else Err (TypeError "wrong number of positional arguments")
  | BClass | BImported => Ok tt
  | BModule => Err (TypeError "'module' object is not callable")
  | BValue _ => Err (TypeError "object is not callable")
  end.

(** A bare name used as a value: a function, class or module is an object
    that is no mapping. *)
Definition global_value (name : string) : res tree :=
  let? b := load_global name in
  match b with
  | BValue t => Ok t
  | _ => Ok (Leaf PNone)
  end.

(** ** The orchestrator, the spawner and the world *)

Inductive level := DEBUG | INFO | WARN | ERROR.

(** A task record: [task["ID"]], [task["Status"]["State"]],
    [task["Status"]["Err"]]. *)
Record task := {
  task_id : string;
  task_state : string;
  task_err : string
}.

(** A service object: [service.id] and the environment list at
    [service.attrs["Spec"]["TaskTemplate"]["ContainerSpec"]["Env"]], absent
    when a key of that path is. *)
Record service := {
  svc_id : string;
  svc_env : option (list string)
}.

Inductive call :=
| ServicesGet (name : string)
| ServicesCreate (config : dict)
| RemoveService (name : string)
| Tasks (service_filter : string).

(** What a method does besides changing the spawner: remote calls, sleeps
    and log records (template and arguments), in order. *)
Inductive event :=
| ECall (c : call)
| ESleep (seconds : Z)
| ELog (lvl : level) (msg : string) (args : list string).

(** The remote side: every call is answered, with a value or an exception,
    as a function of what happened before it. *)
Record orchestrator := {
  services_get : list event -> string -> res service;
  services_create : list event -> dict -> res service;
  remove_service : list event -> string -> res bool;
  list_tasks : list event -> string -> res (list task)
}.

Inductive memspec :=
| MemInt (n : Z)
| MemStr (s : string).

(** What a method reads from [self] and never assigns. *)
Record spawner := {
  (* inherited from jupyterhub.spawner.Spawner *)
  user_name : string;                           (* self.user.name *)
  name : string;                                (* self.name *)
  cmd : list string;
  get_args : list string;
  get_env : string -> list (string * string);   (* from the current api_token *)
  cpu_limit : option float;
  mem_limit : option memspec;
  cpu_guarantee : option float;
  mem_guarantee : option memspec;
  port : Z;
  format_string : string -> res string;
  user_options : dict;
  (* self.server_name: SwarmSpawner defines no such attribute; [None] when
     the parent class defines none either, as jupyterhub.spawner.Spawner *)
  server_name : option string;
  (* traits of SwarmSpawner; [service_name] is the value that the trait has
     when a method reads it, its default is [_service_name] below *)
  default_config : dict;
  service_name : string
}.

(** A dictionary object of the store. *)
Abbreviation record := (list (string * pyval)).

(** What a method can change. *)
Record world := {
  service_id : string;
  api_token : string;
  store : list record;
  trace : list event
}.

Definition set_service_id (s : string) (w : world) : world :=
  {| service_id := s; api_token := api_token w; store := store w; trace := trace w |}.
Definition set_api_token (s : string) (w : world) : world :=
  {| service_id := service_id w; api_token := s; store := store w; trace := trace w |}.
Definition set_store (h : list record) (w : world) : world :=
  {| service_id := service_id w; api_token := api_token w; store := h; trace := trace w |}.
Definition add_event (e : event) (w : world) : world :=
  {| service_id := service_id w; api_token := api_token w; store := store w;
     trace := trace w ++ [e] |}.

(** ** The monad of methods: state, exceptions, and a loop that may not end *)

Inductive outcome (A : Type) :=
| Ret (a : A)
| Raise (e : exn)
| OutOfFuel.
Arguments Ret {A} a.
Arguments Raise {A} e.
Arguments OutOfFuel {A}.

Definition M (A : Type) : Type := world -> outcome A * world.

Definition ret {A} (a : A) : M A := fun w => (Ret a, w).
Definition raise {A} (e : exn) : M A := fun w => (Raise e, w).
Definition bind {A B} (m : M A) (k : A -> M B) : M B :=
  fun w =>
    match m w with
    | (Ret a, w') => k a w'
    | (Raise e, w') => (Raise e, w')
    | (OutOfFuel, w') => (OutOfFuel, w')
    end.
Definition lift {A} (r : res A) : M A :=
  match r with
  | Ok a => ret a
  | Err e => raise e
  end.
Definition try_except {A} (body : M A) (handler : exn -> M A) : M A :=
  fun w =>
    match body w with
    | (Raise e, w') => handler e w'
    | r => r
    end.
Definition gets {A} (f : world -> A) : M A := fun w => (Ret (f w), w).
Definition modify (f : world -> world) : M unit := fun w => (Ret tt, f w).

Notation "'let!' x ':=' m 'in' k" := (bind m (fun x => k))
  (at level 10, x name, m at level 100, k at level 200).
Notation "m ';!' k" := (bind m (fun _ => k))
  (at level 100, k at level 200, right associativity).

Definition log (lvl : level) (msg : string) (args : list string) : M unit :=
  modify (add_event (ELog lvl msg args)).
Definition sleep (seconds : Z) : M unit := modify (add_event (ESleep seconds)).

(** [yield self.docker(method, ...)]: the call is recorded and its answer
    returned or raised. *)
Definition remote {A} (c : call) (answer : list event -> res A) : M A :=
  fun w =>
    match answer (trace w) with
    | Ok a => (Ret a, add_event (ECall c) w)
    | Err e => (Raise e, add_event (ECall c) w)
    end.

(** [s[:7]] *)
Definition first7 (s : string) : string := String.substring 0 7 s.

(** ASCII part of [str.lower]. *)
Definition lower_ascii (c : Ascii.ascii) : Ascii.ascii :=
  let n := Ascii.nat_of_ascii c in
  if (65 <=? n)%nat && (n <=? 90)%nat then Ascii.ascii_of_nat (n + 32) else c.
Fixpoint lower (s : string) : string :=
  match s with
  | EmptyString => EmptyString
  | String c s' => String (lower_ascii c) (lower s')
  end.

(** [s.startswith(p)] and [s.split("=", 1)[1]] *)
Fixpoint startswith (p s : string) : bool :=
  match p, s with
  | EmptyString, _ => true
  | String a p', String b s' => if decide (a = b) then startswith p' s' else false
  | String _ _, EmptyString => false
  end.
Fixpoint after_equals (s : string) : option string :=
  match s with
  | EmptyString => None
  | String c s' => if decide (String c EmptyString = "=") then Some s' else after_equals s'
  end.

Definition is_server_error (status : option Z) : bool :=
  match status with
  | None => false
  | Some c => (500 <=? c)%Z && (c <? 600)%Z
  end.
Definition is_client_error (status : option Z) : bool :=
  match status with
  | None => false
  | Some c => (400 <=? c)%Z && (c <? 500)%Z
  end.

Fixpoint mapM {A B} (f : A -> M B) (l : list A) : M (list B) :=
  match l with
  | [] => ret []
  | x :: l' =>
      let! y := f x in
      let! ys := mapM f l' in
      ret (y :: ys)
  end.

(** Reading and writing a dictionary of the store. *)
Definition store_get (l : loc) (w : world) : record := default [] (store w !! l).
Definition getitem (l : loc) (key : string) : M pyval :=
  let! r := gets (store_get l) in
  match assoc_get key r with
  | Some v => ret v
  | None => raise (KeyError key)
  end.
Definition setitem (l : loc) (key : string) (v : pyval) : M unit :=
  modify (fun w => set_store (<[l := assoc_set key v (store_get l w)]> (store w)) w).

Definition dict_update (d new : dict) : dict :=
  fold_left (fun d '(k, t) => assoc_set k t d) new d.

Definition float_truthy (x : option float) : bool :=
  match x with
  | None => false
  | Some f => negb (PrimFloat.eqb f 0)
  end.
Definition mem_truthy (m : option memspec) : bool :=
  match m with
  | None => false
  | Some (MemInt n) => negb (n =? 0)%Z
  | Some (MemStr s) => negb (String.eqb s "")
  end.
Definition mem_value (m : option memspec) : pyval :=
  match m with
  | None => PNone
  | Some (MemInt n) => PInt n
  | Some (MemStr s) => PStr (lower s)
  end.
Definition times_10e9 (x : option float) : pyval :=
  match x with
  | None => PNone
  | Some f => PFloat (PrimFloat.mul f 10e9)
  end.

Definition nonempty {A} (l : list A) : bool :=
  match l with
  | [] => false
  | _ :: _ => true
  end.

Fixpoint chars (s : string) : list pyval :=
  match s with
  | EmptyString => []
  | String c s' => PStr (String c EmptyString) :: chars s'
  end.

(** ** The methods of SwarmSpawner *)

Section methods.
Variable orch : orchestrator.
Variable self : spawner.

(** [self.server_name] *)
Definition self_server_name : M string :=
  match server_name self with
  | Some s => ret s
  | None => raise (AttributeError "server_name")
  end.

(** [clear_state]: the parent's [clear_state] resets [api_token]. *)
Definition clear_state : M unit :=
  modify (set_api_token "") ;!
  modify (set_service_id "").

Definition get_service : M (option service) :=
  log DEBUG "Getting Docker service {}" [service_name self] ;!
  try_except
    (let! service := remote (ServicesGet (service_name self))
                            (fun tr => services_get orch tr (service_name self)) in
     modify (set_service_id (svc_id service)) ;!
     ret (Some service))
    (fun err =>
       match err with
       | NotFound _ =>
           log INFO "Docker service {} is gone" [service_name self] ;!
           modify (set_service_id "") ;!
           ret None
       | APIError status =>
           if is_server_error status then
             log INFO "Docker Swarm Server error" [] ;!
             modify (set_service_id "") ;!
             ret None
           else raise err
       | _ => raise err
       end).

(** [self.format_string(v)] is [v.format(...)]. *)
Definition format_value (v : pyval) : M pyval :=
  match v with
  | PStr s => let! s' := lift (format_string self s) in ret (PStr s')
  | _ => raise (AttributeError "format")
  end.

Definition _format_mount (mount : pyval) : M pyval :=
  match mount with
  | PStr s => let! s' := lift (format_string self s) in ret (PStr s')
  | PRef l =>
      let! target := getitem l "target" in
      let! target := format_value target in
      setitem l "target" target ;!
      let! source := getitem l "source" in
      let! source := format_value source in
      setitem l "source" source ;!
      ret (PRef l)
  | _ => ret PNone
  end.

(** Lines 228 to 256: the base configuration and the two merges; returns
    [config] and [profile_name]. *)
Definition merge_layers : M (dict * tree) :=
  let! token := gets api_token in
  let config := [] in
  let config := assoc_set "name" (Leaf (PStr (service_name self))) config in
  let config := assoc_set "command" (Leaf (PList (PStr <$> cmd self))) config in
  let config := assoc_set "args" (Leaf (PList (PStr <$> get_args self))) config in
  let config :=
    assoc_set "env"
      (Leaf (PList ((fun '(k, v) => PStr (k +:+ "=" +:+ v)) <$> get_env self token)))
      config in
  let resources := [] in
  let resources :=
    if float_truthy (cpu_limit self)
    then assoc_set "cpu_limit" (Leaf (times_10e9 (cpu_limit self))) resources
    else resources in
  let resources :=
    if mem_truthy (mem_limit self)
    then assoc_set "mem_limit" (Leaf (mem_value (mem_limit self))) resources
    else resources in
  let resources :=
    if float_truthy (cpu_guarantee self)
    then assoc_set "cpu_reservation" (Leaf (times_10e9 (cpu_guarantee self))) resources
    else resources in
  let resources :=
    if mem_truthy (mem_guarantee self)
    then assoc_set "mem_reservation" (Leaf (mem_value (mem_guarantee self))) resources
    else resources in
  let config :=
    if nonempty resources then assoc_set "resources" (Node resources) config
    else config in
  let! config :=
    if nonempty (default_config self) then
      (* _update_config(config, default_config): a bare name *)
      let! update := lift (global_value "default_config") in
      lift (_update_config (Node config) update)
    else ret config in
  if nonempty (user_options self) then
    let profile_name := default (Leaf (PStr "")) (assoc_get "name" (user_options self)) in
    let profile_config := default (Node []) (assoc_get "config" (user_options self)) in
    let! config := lift (_update_config (Node config) profile_config) in
    ret (config, profile_name)
  else ret (config, Leaf (PStr "")).

(** Lines 258 to 266. *)
Definition add_labels (profile_name : tree) (config : dict) : M dict :=
  let labels :=
    [ ("org.jupyterhub.user", Leaf (PStr (user_name self)));
      ("org.jupyterhub.server", Leaf (PStr (name self)));
      ("org.jupyterhub.profile", profile_name) ] in
  match assoc_get "labels" config with
  | Some (Node old) => ret (assoc_set "labels" (Node (dict_update old labels)) config)
  | Some (Leaf _) => raise (AttributeError "update")
  | None => ret (assoc_set "labels" (Node labels) config)
  end.

(** Lines 268 to 270: [if mounts:] and the iteration over [mounts]. *)
Definition format_mounts (config : dict) : M dict :=
  match assoc_get "mounts" config with
  | None | Some (Leaf PNone) => ret config
  | Some (Leaf (PList xs)) =>
      if nonempty xs then
        let! ms := mapM _format_mount xs in
        ret (assoc_set "mounts" (Leaf (PList ms)) config)
      else ret config
  | Some (Leaf (PStr s)) =>
      if nonempty (chars s) then
        let! ms := mapM _format_mount (chars s) in
        ret (assoc_set "mounts" (Leaf (PList ms)) config)
      else ret config
  | Some (Node items) =>
      if nonempty items then
        let! ms := mapM _format_mount (PStr <$> items.*1) in
        ret (assoc_set "mounts" (Leaf (PList ms)) config)
      else ret config
  | Some (Leaf (PBool b)) =>
      if b then raise (TypeError "object is not iterable") else ret config
  | Some (Leaf (PInt n)) =>
      if (n =? 0)%Z then ret config else raise (TypeError "object is not iterable")
  | Some (Leaf (PFloat x)) =>
      if PrimFloat.eqb x 0 then ret config else raise (TypeError "object is not iterable")
  | Some (Leaf (PRef l)) =>
      let! r := gets (store_get l) in
      if nonempty r then
        let! ms := mapM _format_mount (PStr <$> r.*1) in
        ret (assoc_set "mounts" (Leaf (PList ms)) config)
      else ret config
  end.

Definition get_service_config : M dict :=
  let! merged := merge_layers in
  let! config := add_labels (snd merged) (fst merged) in
  format_mounts config.

Definition stop : M unit :=
  let! sid := gets service_id in
  log INFO "Stopping and removing Docker service {} with id {}"
      [service_name self; first7 sid] ;!
  try_except
    (let! result := remote (RemoveService (service_name self))
                           (fun tr => remove_service orch tr (service_name self)) in
     if result : bool then
       let! sid := gets service_id in
       log INFO "Docker service {} with id {} was removed"
           [service_name self; first7 sid]
     else ret tt)
    (fun err =>
       match err with
       | NotFound _ =>
           let! sn := self_server_name in
           log WARN "Docker service {} not found" [sn]
       | APIError _ =>
           let! sn := self_server_name in
           let! sid := gets service_id in
           log ERROR "Error removing Docker service {} with id {}" [sn; sid]
       | _ => raise err
       end) ;!
  clear_state.

(** The body of [for task in tasks] in [poll]. *)
Fixpoint poll_scan (tasks : list task) (running_task : option task)
  : M (option task) :=
  match tasks with
  | [] => ret running_task
  | task :: tasks' =>
      let! running_task :=
        if String.eqb (task_state task) "running" then
          let! sid := gets service_id in
          log DEBUG "Task {} of service with id {} status: {}"
              [first7 (task_id task); first7 sid; task_state task] ;!
          ret (Some task)
        else ret running_task in
      (if String.eqb (task_state task) "rejected" then
         let! sid := gets service_id in
         log ERROR "Task {} of service with id {} status: {} message: {}"
             [first7 (task_id task); first7 sid; task_state task; task_err task] ;!
         stop
       else ret tt) ;!
      poll_scan tasks' running_task
  end.

(** Lines 353 to 383: [poll] from the task list on. *)
Definition poll_tasks (tasks : list task) : M pyval :=
  (if nonempty tasks then ret tt
   else log WARN "Tasks for service {} not found" [service_name self]) ;!
  let! running_task := poll_scan tasks None in
  match running_task with
  | Some _ => ret PNone
  | None => ret (PInt 0)
  end.

(** [tasks = yield docker("tasks", {"service": self.service_name})]: the
    callee is the bare name [docker]. *)
Definition poll : M pyval :=
  lift (call_global "docker" 2) ;!
  let! tasks := remote (Tasks (service_name self))
                       (fun tr => list_tasks orch tr (service_name self)) in
  poll_tasks tasks.

(** The body of [for task in tasks] in [wait_for_running_tasks]: either
    [return False] or the flags at the end of the list. *)
Fixpoint wait_scan (max_attempts attempt : Z) (tasks : list task)
    (running preparing : bool) : M (pyval + bool * bool) :=
  match tasks with
  | [] => ret (inr (running, preparing))
  | task :: tasks' =>
      log INFO "Waiting for service {}, current task status: {}"
          [service_name self; task_state task] ;!
      let running := if String.eqb (task_state task) "running" then true else running in
      let preparing := if String.eqb (task_state task) "preparing" then true else preparing in
      if String.eqb (task_state task) "rejected" || (max_attempts <? attempt)%Z
      then ret (inl (PBool false))
      else wait_scan max_attempts attempt tasks' running preparing
  end.

(** One test of [while not running] and, if it holds, one turn of the
    loop: either the value the method returns or the next [running] and
    [attempt]. *)
Definition wait_iteration (max_attempts : Z) (st : bool * Z) : M (pyval + bool * Z) :=
  let '(running, attempt) := st in
  if running then ret (inl PNone)
  else
    let! tasks := remote (Tasks (service_name self))
                         (fun tr => list_tasks orch tr (service_name self)) in
    let! r := wait_scan max_attempts attempt tasks running false in
    match r with
    | inl v => ret (inl v)
    | inr (running, preparing) =>
        let attempt := if preparing then attempt else (attempt + 1)%Z in
        sleep 1 ;!
        ret (inr (running, attempt))
    end.

(** At most [fuel] turns. *)
Fixpoint wait_loop (max_attempts : Z) (fuel : nat) (st : bool * Z)
  : M (pyval + bool * Z) :=
  match fuel with
  | O => ret (inr st)
  | S fuel' =>
      let! r := wait_iteration max_attempts st in
      match r with
      | inl v => ret (inl v)
      | inr st' => wait_loop max_attempts fuel' st'
      end
  end.

Definition wait_for_running_tasks (max_attempts : Z) (fuel : nat) : M pyval :=
  let! r := wait_loop max_attempts fuel (false, 0%Z) in
  match r with
  | inl v => ret v
  | inr _ => fun w => (OutOfFuel, w)
  end.

(** The [for line in envs] of [start]. *)
Fixpoint reuse_token (envs : list string) : M unit :=
  match envs with
  | [] => ret tt
  | line :: envs' =>
      if startswith "JPY_API_TOKEN=" line then
        match after_equals line with
        | Some token => modify (set_api_token token)
        | None => raise (OtherError "IndexError")
        end
      else reuse_token envs'
  end.

Definition start (fuel : nat) : M (string * Z) :=
  let! service := get_service in
  match service with
  | None =>
      let! config := get_service_config in
      (* _parse_config(config): one argument for [def _parse_config(self, config)];
         the body, which wraps mappings into docker.types objects, is not modelled *)
      lift (call_global "_parse_config" 1) ;!
      let! service := remote (ServicesCreate config)
                             (fun tr => services_create orch tr config) in
      modify (set_service_id (svc_id service)) ;!
      let! image :=
        match assoc_get "image" config with
        | Some (Leaf (PStr s)) => ret s
        | Some _ => ret "<object>"
        | None => raise (KeyError "image")
        end in
      let! sid := gets service_id in
      log INFO "Created Docker service {} with id {} from image {} for user {}"
          [service_name self; first7 sid; image; user_name self] ;!
      wait_for_running_tasks 20 fuel ;!
      ret tt
  | Some service =>
      let! sid := gets service_id in
      log INFO "Found existing Docker service {} with id {}"
          [service_name self; first7 sid] ;!
      match svc_env service with
      | Some envs => reuse_token envs
      | None => raise (KeyError "Env")
      end
  end ;!
  ret (service_name self, port self).
End methods.

(** ** Persisted state *)

(** [get_state]: the parent's [get_state] returns an empty dictionary, and
    the identifier is put in when it is not empty. *)
Definition get_state (w : world) : dict :=
  let state := [] in
  if negb (String.eqb (service_id w) "")
  then assoc_set "service_id" (Leaf (PStr (service_id w))) state
  else state.

(** [load_state]: the parent's [load_state] does nothing; [service_id] is a
    Unicode trait, which accepts a string only. *)
Definition load_state (state : dict) : M unit :=
  match default (Leaf (PStr "")) (assoc_get "service_id" state) with
  | Leaf (PStr s) => modify (set_service_id s)
  | _ => raise (OtherError "TraitError")
  end.

(** ** The default name of the service *)

(** Lines 134 to 138, the default of the trait [service_name]:
    [format_string] is the parent's, [str.format] with the keywords that
    [self.template_namespace()] returns. *)
Definition _service_name (self : spawner) : res string :=
  if negb (String.eqb (name self) "")
  then format_string self "{prefix}-{username}-{server}"
  else format_string self "{prefix}-{username}".

(** Lines 409 to 416.  The method is named [templete_namespace]: it does not
    override the [template_namespace] that [format_string] calls. *)
Definition templete_namespace (name_prefix : string) (self : spawner) : dict :=
  let profile := user_options self in
  [ ("prefix", Leaf (PStr name_prefix));
    ("username", Leaf (PStr (user_name self)));
    ("servername", Leaf (PStr (name self)));
    ("profile", default (Leaf (PStr "")) (assoc_get "name" profile)) ].

(** The keyword arguments that a namespace gives to [str.format]: a string
    stands for itself, another value for its [str()], here [py_str]. *)
Definition namespace_text (py_str : tree -> string) (ns : dict) : list (string * string) :=
  (fun '(key, value) =>
     (key, match value with
           | Leaf (PStr text) => text
           | _ => py_str value
           end)) <$> ns.

(** ** The options form *)

Section options_form.
(** What [_options_form] reads of the spawner: the trait [profiles], a list
    of dictionaries, and the trait [option_template] through its [format]
    with the keywords [name], [title] and [selected]. *)
Variable profiles : list dict.
Variable option_format : tree -> tree -> string -> res string.
(** [str.format] of a template with the keyword [option_template]. *)
Variable template_format : string -> string -> res string.

(** Lines 115 to 118: one element of the comprehension; the keywords are
    evaluated from left to right, [prof["name"]] first. *)
Definition format_option (i : nat) (prof : dict) : res string :=
  match assoc_get "name" prof with
  | None => Err (KeyError "name")
  | Some name =>
      let title := default name (assoc_get "title" prof) in
      option_format name title (if decide (i = 0) then "selected" else "")
  end.

(** [for i, prof in enumerate(self.profiles)], from index [i] on. *)
Fixpoint format_options (i : nat) (profs : list dict) : res (list string) :=
  match profs with
  | [] => Ok []
  | prof :: profs =>
      let? option := format_option i prof in
      let? options := format_options (S i) profs in
      Ok (option :: options)
  end.

(** Lines 112 to 120; [form_template] on line 120 is a bare name. *)
Definition _options_form : res string :=
  if nonempty profiles then
    let? options := format_options 0 profiles in
    let options := String.concat "" options in
    let? template := global_value "form_template" in
    match template with
    | Leaf (PStr t) => template_format t options
    | _ => Err (AttributeError "format")
    end
  else Ok "".
End options_form.

(** ** Vocabulary of the statements *)

(** [config[k1][k2]...] *)
Fixpoint lookup_path (p : path) (t : tree) : option tree :=
  match p with
  | [] => Some t
  | k :: p' =>
      match t with
      | Node d =>
          match assoc_get k d with
          | Some t' => lookup_path p' t'
          | None => None
          end
      | Leaf _ => None
      end
  end.

(** A Python dictionary holds a key once, at every level. *)
Fixpoint wf_tree (t : tree) : bool :=
  match t with
  | Leaf _ => true
  | Node items =>
      bool_decide (NoDup items.*1) && forallb (fun '(_, t') => wf_tree t') items
  end.

(** No flattened key is a proper prefix of another. *)
Definition prefix_free (keys : list path) : bool :=
  forallb (fun k1 =>
    forallb (fun k2 =>
      implb (bool_decide (k1 `prefix_of` k2)) (bool_decide (k1 = k2))) keys) keys.

(** A list of the override meets only a list of the base. *)
Definition lists_meet_lists (base override : flat) : bool :=
  forallb (fun '(k, v1) =>
    match assoc_get k base with
    | Some v2 => implb (is_list v1) (is_list v2)
    | None => true
    end) override.

Definition mergeable (base override : dict) : bool :=
  wf_tree (Node base) && wf_tree (Node override)
  && lists_meet_lists (flatten_items [] base) (flatten_items [] override)
  && prefix_free ((flatten_items [] base).*1 ++ (flatten_items [] override).*1).

(** What one turn of the loop stores at a key. *)
Definition merge_value (val1 : pyval) (old : option pyval) : pyval :=
  match val1, old with
  | PList l1, Some (PList l2) => PList (l1 ++ l2)
  | _, _ => val1
  end.

(** The three clauses of the merge, on the nested result [r]. *)
Definition merged_as_specified (base override r : dict) : Prop :=
  (forall k l1 l2,
      (k, PList l1) ∈ flatten_items [] override ->
      assoc_get k (flatten_items [] base) = Some (PList l2) ->
      lookup_path k (Node r) = Some (Leaf (PList (l1 ++ l2))))
  /\ (forall k v1,
      (k, v1) ∈ flatten_items [] override ->
      is_list v1 = false \/ assoc_get k (flatten_items [] base) = None ->
      lookup_path k (Node r) = Some (Leaf v1))
  /\ (forall k v,
      (k, v) ∈ flatten_items [] base ->
      assoc_get k (flatten_items [] override) = None ->
      lookup_path k (Node r) = Some (Leaf v)).

(** The paths of a nested dictionary all lead towards the keys [K]. *)
Definition shape_inv (d : dict) (K : list path) : Prop :=
  forall p t, p <> [] -> lookup_path p (Node d) = Some t ->
    exists k, k ∈ K /\ p `prefix_of` k /\ forall u, t = Leaf u -> p = k.

Definition has_state (state : string) (tasks : list task) : bool :=
  existsb (fun t => String.eqb (task_state t) state) tasks.

(** The value that [start] reads off an environment list. *)
Definition recovered_token (envs : list string) (old : string) : string :=
  match find (startswith "JPY_API_TOKEN=") envs with
  | Some line => default old (after_equals line)
  | None => old
  end.

(** The answer to the removal call of [stop]. *)
Definition removal_reply (orch : orchestrator) (self : spawner) (w : world) : res bool :=
  remove_service orch
    (trace w ++ [ELog INFO "Stopping and removing Docker service {} with id {}"
                   [service_name self; first7 (service_id w)]])
    (service_name self).

(** The errors that [stop] handles. *)
Definition removal_error (e : exn) : bool :=
  match e with
  | NotFound _ | APIError _ => true
  | _ => false
  end.

Definition is_removal (e : event) : bool :=
  match e with
  | ECall (RemoveService _) => true
  | _ => false
  end.
Definition removal_calls (tr : list event) : nat := length (filter is_removal tr).

(** A method without a loop: it returns or raises. *)
Definition loop_free {A} (m : M A) : Prop := forall w, (m w).1 <> OutOfFuel.

(** How many tasks of a list are in a state. *)
Definition count_state (state : string) (tasks : list task) : nat :=
  length (List.filter (fun t => String.eqb (task_state t) state) tasks).

Definition is_string (v : pyval) : bool :=
  match v with
  | PStr _ => true
  | _ => false
  end.

(** The merged configuration has no mounts, or a list of strings. *)
Definition string_mounts (config : dict) : bool :=
  match assoc_get "mounts" config with
  | None => true
  | Some (Leaf (PList xs)) => forallb is_string xs
  | Some _ => false
  end.

(** What stops [_format_mount] at the source of a descriptor, if anything:
    the key is missing, the value is no string, or its template fails. *)
Definition source_error (self : spawner) (r : record) : option exn :=
  match assoc_get "source" r with
  | None => Some (KeyError "source")
  | Some (PStr s) =>
      match format_string self s with
      | Ok _ => None
      | Err e => Some e
      end
  | Some _ => Some (AttributeError "format")
  end.

(** Counting the events of a kind in a trace. *)
Definition count_events (kind : event -> bool) (tr : list event) : nat :=
  length (List.filter kind tr).
Definition is_call (e : event) : bool :=
  match e with
  | ECall _ => true
  | _ => false
  end.
Definition is_create (e : event) : bool :=
  match e with
  | ECall (ServicesCreate _) => true
  | _ => false
  end.
Definition is_tasks_call (e : event) : bool :=
  match e with
  | ECall (Tasks _) => true
  | _ => false
  end.
Definition is_sleep (e : event) : bool :=
  match e with
  | ESleep _ => true
  | _ => false
  end.
Definition is_log (e : event) : bool :=
  match e with
  | ELog _ _ _ => true
  | _ => false
  end.

(** The errors of the lookup that [get_service] turns into "no service". *)
Definition lookup_handled (e : exn) : bool :=
  match e with
  | NotFound _ => true
  | APIError status => is_server_error status
  | _ => false
  end.

(** The answer to the lookup call of [get_service]. *)
Definition lookup_reply (orch : orchestrator) (self : spawner) (w : world) : res service :=
  services_get orch
    (trace w ++ [ELog DEBUG "Getting Docker service {}" [service_name self]])
    (service_name self).

(** Some task list that the orchestrator can answer holds a rejected task. *)
Definition rejected_seen (orch : orchestrator) : Prop :=
  exists tr name tasks,
    list_tasks orch tr name = Ok tasks /\ has_state "rejected" tasks = true.

(** A method that leaves the trace and the spawner's fields alone: it calls
    nothing, logs nothing, and can only write to the store. *)
Definition same_but_store (w w' : world) : Prop :=
  trace w' = trace w /\ service_id w' = service_id w /\ api_token w' = api_token w.
Definition store_only {A} (m : M A) : Prop := forall w, same_but_store w (m w).2.

Definition computed_labels : list string :=
  [ "org.jupyterhub.user"; "org.jupyterhub.server"; "org.jupyterhub.profile" ].

(** A flattened item one level down, under the key [k]. *)
Definition prepend (k : string) (kv : path * pyval) : path * pyval := (k :: kv.1, kv.2).

(** No mapping below the top is empty. *)
Fixpoint no_empty (t : tree) : bool :=
  match t with
  | Leaf _ => true
  | Node items => nonempty items && forallb (fun '(_, t') => no_empty t') items
  end.
Definition no_empty_below (d : dict) : bool := forallb (fun '(_, t) => no_empty t) d.

(** No value at a flattened key is a list. *)
Definition scalar_only (d : dict) : bool :=
  forallb (fun '(_, v) => negb (is_list v)) (flatten_items [] d).

(** ** Examples *)

(** A default in which the service mode is a string, and a profile that
    gives it as a mapping. *)
Definition mode_base : dict := [ ("image", Leaf (PStr "jupyterhub/singleuser:latest"));
                                 ("mode", Leaf (PStr "global")) ].
Definition mode_override : dict :=
  [ ("mode", Node [ ("replicated", Node [ ("replicas", Leaf (PInt 1)) ]) ]) ].

(** Two layers with a list, a scalar and a new nested key. *)
Definition layer_base : dict :=
  [ ("image", Leaf (PStr "jupyterhub/singleuser:latest"));
    ("mounts", Leaf (PList [PStr "/data:/data"]));
    ("resources", Node [ ("cpu_limit", Leaf (PInt 2)) ]) ].
Definition layer_override : dict :=
  [ ("image", Leaf (PStr "jupyter/scipy-notebook"));
    ("mounts", Leaf (PList [PStr "/home/{username}:/home/jovyan"]));
    ("labels", Node [ ("team", Leaf (PStr "ml")) ]) ].

(** A descriptor whose source names a field that the namespace lacks. *)
Definition broken_mount : record :=
  [ ("target", PStr "/home/{username}"); ("source", PStr "vol-{group}"); ("type", PStr "volume") ].

(** A profile with string mounts only. *)
Definition bind_profile : dict :=
  [ ("name", Leaf (PStr "bind"));
    ("config", Node [ ("mounts", Leaf (PList [PStr "/srv/{username}:/home/jovyan"])) ]) ].

(** A profile that gives a command and an environment of its own. *)
Definition lab_profile : dict :=
  [ ("name", Leaf (PStr "lab"));
    ("config", Node [ ("command", Leaf (PList [PStr "jupyter-labhub"]));
                      ("env", Leaf (PList [PStr "JUPYTER_ENABLE_LAB=1"])) ]) ].

(** A base in which "labels" is an empty mapping. *)
Definition hollow_base : dict :=
  [ ("image", Leaf (PStr "jupyterhub/singleuser:latest")); ("labels", Node []) ].

(** A profile that gives a list where the default has a string. *)
Definition list_override : dict := [ ("image", Leaf (PList [PStr "a"; PStr "b"])) ].

(** [str.format] for templates made of text and [{field}] replacements,
    which is what the examples pass to [format_string]. *)
Fixpoint template_scan (ns : list (string * string)) (s : string)
    (field : option string) : res string :=
  match s, field with
  | EmptyString, None => Ok EmptyString
  | EmptyString, Some _ => Err (ValueError "expected '}' before end of string")
  | String c s', None =>
      if decide (String c EmptyString = "{") then template_scan ns s' (Some EmptyString)
      else
        let? r := template_scan ns s' None in
        Ok (String c r)
  | String c s', Some f =>
      if decide (String c EmptyString = "}") then
        match assoc_get f ns with
        | Some v =>
            let? r := template_scan ns s' None in
            Ok (v +:+ r)
        | None => Err (KeyError f)
        end
      else template_scan ns s' (Some (f +:+ String c EmptyString))
  end.
Definition template_format (ns : list (string * string)) (s : string) : res string :=
  template_scan ns s None.

(** The mount descriptor of a profile, at address 0 of the store, and the
    profile that holds it. *)
Definition home_mount : record :=
  [ ("target", PStr "/home/{username}"); ("source", PStr "vol-{username}") ].
Definition home_profile : dict :=
  [ ("name", Leaf (PStr "home"));
    ("title", Leaf (PStr "Home volume"));
    ("config", Node [ ("image", Leaf (PStr "jupyter/scipy-notebook"));
                      ("labels", Node [ ("team", Leaf (PStr "ml"));
                                        ("org.jupyterhub.user", Leaf (PStr "mallory")) ]);
                      ("mounts", Leaf (PList [PRef 0])) ]) ].

(** A user's spawner: no [server_name], as under jupyterhub; [default_config]
    and [user_options] are left to the example. *)
Definition spawner_of (user : string) (default_config user_options : dict) : spawner :=
  {| user_name := user;
     name := "";
     cmd := ["jupyterhub-singleuser"];
     get_args := ["--port=8888"];
     get_env := fun token => [ ("JUPYTERHUB_API_TOKEN", token); ("JPY_API_TOKEN", token) ];
     cpu_limit := Some 0.5%float;
     mem_limit := Some (MemStr "1G");
     cpu_guarantee := None;
     mem_guarantee := None;
     port := 8888;
     format_string := template_format [ ("username", user) ];
     user_options := user_options;
     server_name := None;
     default_config := default_config;
     service_name := "jupyter-" +:+ user |}.

Definition alice : spawner := spawner_of "alice" [] home_profile.
Definition bob : spawner := spawner_of "bob" [] home_profile.
Definition alice_with_defaults : spawner :=
  spawner_of "alice" [ ("image", Leaf (PStr "jupyterhub/singleuser:latest")) ] home_profile.

Definition world_of (id token : string) (h : list record) : world :=
  {| service_id := id; api_token := token; store := h; trace := [] |}.
Definition fresh : world := world_of "" "" [home_mount].
Definition started : world := world_of "k3x9q0v7m2" "secret" [home_mount].

(** A named server of [user] whose [format_string] formats with the
    namespace that lines 409 to 416 build. *)
Definition named_server (user server : string) : spawner :=
  let base := spawner_of user [] home_profile in
  let named :=
    {| user_name := user_name base; name := server; cmd := cmd base;
       get_args := get_args base; get_env := get_env base;
       cpu_limit := cpu_limit base; mem_limit := mem_limit base;
       cpu_guarantee := cpu_guarantee base; mem_guarantee := mem_guarantee base;
       port := port base; format_string := format_string base;
       user_options := user_options base; server_name := server_name base;
       default_config := default_config base; service_name := service_name base |} in
  {| user_name := user_name named; name := name named; cmd := cmd named;
     get_args := get_args named; get_env := get_env named;
     cpu_limit := cpu_limit named; mem_limit := mem_limit named;
     cpu_guarantee := cpu_guarantee named; mem_guarantee := mem_guarantee named;
     port := port named;
     format_string :=
       template_format (namespace_text (fun _ => "") (templete_namespace "jupyter" named));
     user_options := user_options named; server_name := server_name named;
     default_config := default_config named; service_name := service_name named |}.

(** An orchestrator that answers every call the same way. *)
Definition answering (get : res service) (remove : res bool) (tasks : res (list task))
  : orchestrator :=
  {| services_get := fun _ _ => get;
     services_create := fun _ _ => Err (OtherError "unexpected");
     remove_service := fun _ _ => remove;
     list_tasks := fun _ _ => tasks |}.

Definition task_in (state : string) : task :=
  {| task_id := "t0a1b2c3d4"; task_state := state; task_err := "" |}.
Definition live_service : service :=
  {| svc_id := "k3x9q0v7m2";
     svc_env := Some [ "JUPYTERHUB_USER=alice"; "JPY_API_TOKEN=secret=1"; "JPY_API_TOKEN=other" ] |}.

(** * Properties *)

(** ** Association lists *)

Section assoc_facts.
Context {K V : Type} `{EqDecision K}.
Implicit Types (k : K) (v : V) (m : list (K * V)).

Lemma assoc_get_set_eq k v m : assoc_get k (assoc_set k v m) = Some v.
Proof.
  induction m as [|[k' v'] m IH]; simpl.
  - by rewrite decide_True.
  - destruct (decide (k = k')) as [->|Hne]; simpl.
    + by rewrite decide_True.
    + by rewrite decide_False.
Qed.

Lemma assoc_get_set_ne k k' v m :
  k' <> k -> assoc_get k' (assoc_set k v m) = assoc_get k' m.
Proof.
  intros Hne. induction m as [|[k0 v0] m IH]; simpl.
  - by rewrite decide_False.
  - destruct (decide (k = k0)) as [->|Hk]; simpl.
    + by rewrite !decide_False.
    + destruct (decide (k' = k0)); [done|apply IH].
Qed.

Lemma assoc_get_elem k v m : assoc_get k m = Some v -> (k, v) ∈ m.
Proof.
  induction m as [|[k' v'] m IH]; simpl; [done|].
  destruct (decide (k = k')) as [->|Hne].
  - intros [= ->]. by left.
  - intros H1. right. by apply IH.
Qed.

Lemma assoc_get_None k m : assoc_get k m = None <-> k ∉ m.*1.
Proof.
  induction m as [|[k' v'] m IH]; simpl.
  - split; [intros _; apply not_elem_of_nil|done].
  - rewrite not_elem_of_cons. destruct (decide (k = k')) as [->|Hne].
    + split; [done|]. by intros [? _].
    + rewrite IH. tauto.
Qed.

Lemma assoc_get_is_Some k m : is_Some (assoc_get k m) <-> k ∈ m.*1.
Proof.
  destruct (assoc_get k m) as [v|] eqn:E.
  - split; [intros _|by eauto].
    apply assoc_get_elem in E. apply list_elem_of_fmap. by exists (k, v).
  - apply assoc_get_None in E. split; [by intros [? ?]|done].
Qed.

Lemma elem_assoc_get k v m :
  NoDup m.*1 -> (k, v) ∈ m -> assoc_get k m = Some v.
Proof.
  induction m as [|[k' v'] m IH]; simpl.
  - intros _ Hin. by apply elem_of_nil in Hin.
  - rewrite NoDup_cons. intros [Hnotin Hnd] Hin.
    apply elem_of_cons in Hin as [[= -> ->]|Hin]; [by rewrite decide_True|].
    destruct (decide (k = k')) as [->|Hne]; [|by apply IH].
    destruct Hnotin. apply list_elem_of_fmap. by exists (k', v).
Qed.

Lemma assoc_set_keys k v m :
  (assoc_set k v m).*1 = if assoc_mem k m then m.*1 else m.*1 ++ [k].
Proof.
  unfold assoc_mem. induction m as [|[k' v'] m IH]; csimpl; [done|].
  destruct (decide (k = k')) as [->|Hne]; csimpl; [done|].
  rewrite IH. by destruct (assoc_get k m).
Qed.

Lemma assoc_set_keys_subseteq k v m : (assoc_set k v m).*1 ⊆ k :: m.*1.
Proof.
  rewrite assoc_set_keys. intros x Hx. destruct (assoc_mem k m).
  - by right.
  - apply elem_of_app in Hx as [?|Hx]; [by right|].
    apply list_elem_of_singleton in Hx as ->. by left.
Qed.

Lemma assoc_set_NoDup k v m : NoDup m.*1 -> NoDup (assoc_set k v m).*1.
Proof.
  intros Hnd. rewrite assoc_set_keys. unfold assoc_mem.
  destruct (assoc_get k m) eqn:E; [done|].
  apply assoc_get_None in E. apply NoDup_app. split_and!; [done| |apply NoDup_singleton].
  intros x Hx Hx'. apply list_elem_of_singleton in Hx' as ->. done.
Qed.
End assoc_facts.

(** ** The loop of _update_config *)

Lemma update_items_mismatch k l1 update config v2 :
  assoc_get k config = Some v2 -> is_list v2 = false ->
  (k, PList l1) ∈ update ->
  update_items config update = Err AssertionError.
Proof.
  revert config v2. induction update as [|[opt val1] update IH]; intros config v2 Hget Hv2 Hin.
  - by apply elem_of_nil in Hin.
  - simpl. unfold update_item.
    destruct (decide (opt = k)) as [->|Hne].
    + unfold assoc_mem. rewrite Hget.
      destruct (is_list val1) eqn:Hl1; simpl.
      * destruct v2; try done; by destruct val1.
      * apply elem_of_cons in Hin as [[= <-]|Hin]; [done|].
        eapply IH; [apply assoc_get_set_eq|done..].
    + apply elem_of_cons in Hin as [[= ? ?]|Hin]; [done|].
      destruct (is_list val1 && assoc_mem opt config).
      * destruct (assoc_get opt config) as [[]|]; try done.
        destruct val1; try done. simpl.
        eapply IH; [|done..]. by rewrite assoc_get_set_ne.
      * simpl. eapply IH; [|done..]. by rewrite assoc_get_set_ne.
Qed.

Lemma update_item_ok config opt val1 :
  match assoc_get opt config with
  | Some v2 => implb (is_list val1) (is_list v2)
  | None => true
  end = true ->
  update_item config opt val1
  = Ok (assoc_set opt (merge_value val1 (assoc_get opt config)) config).
Proof.
  unfold update_item, assoc_mem, merge_value.
  destruct (assoc_get opt config) as [v2|]; [|by rewrite andb_false_r; destruct val1].
  destruct val1; simpl; try done. by destruct v2.
Qed.

Lemma lists_meet_lists_ext config config' update :
  (forall k, k ∈ update.*1 -> assoc_get k config' = assoc_get k config) ->
  lists_meet_lists config update = true -> lists_meet_lists config' update = true.
Proof.
  unfold lists_meet_lists. intros Hext.
  induction update as [|[k v1] update IH]; simpl; [done|].
  rewrite !andb_true_iff. intros [H1 H2]. split.
  - rewrite Hext; [done|]. csimpl. by left.
  - apply IH; [|done]. intros k' Hk'. apply Hext. csimpl. by right.
Qed.

Lemma update_items_ok update config :
  NoDup update.*1 -> lists_meet_lists config update = true ->
  exists config',
    update_items config update = Ok config'
    /\ config'.*1 ⊆ config.*1 ++ update.*1
    /\ (NoDup config.*1 -> NoDup config'.*1)
    /\ (forall k, k ∉ update.*1 -> assoc_get k config' = assoc_get k config)
    /\ (forall k v1, (k, v1) ∈ update ->
          assoc_get k config' = Some (merge_value v1 (assoc_get k config))).
Proof.
  revert config. induction update as [|[opt val1] update IH]; intros config Hnd Hmeet.
  - exists config. split_and!; try done.
    + intros x Hx. apply elem_of_app. by left.
    + intros k v1 Hin. by apply elem_of_nil in Hin.
  - csimpl in Hnd. apply NoDup_cons in Hnd as [Hopt Hnd].
    simpl in Hmeet. apply andb_true_iff in Hmeet as [Hhead Hmeet].
    simpl. rewrite (update_item_ok _ _ _ Hhead). simpl.
    set (config1 := assoc_set opt _ config).
    destruct (IH config1 Hnd) as (config' & Hrun & Hkeys & Hnodup & Hother & Hupd).
    { eapply lists_meet_lists_ext; [|done]. intros k Hk.
      apply assoc_get_set_ne. by intros ->. }
    exists config'. split_and!; [done|..].
    + intros x Hx. apply Hkeys in Hx. apply elem_of_app in Hx as [Hx|Hx].
      * apply assoc_set_keys_subseteq in Hx. apply elem_of_cons in Hx as [->|Hx].
        -- apply elem_of_app. right. csimpl. by left.
        -- apply elem_of_app. by left.
      * apply elem_of_app. right. csimpl. by right.
    + intros Hc. apply Hnodup. by apply assoc_set_NoDup.
    + intros k Hk. csimpl in Hk. apply not_elem_of_cons in Hk as [Hk1 Hk2].
      rewrite Hother by done. by apply assoc_get_set_ne.
    + intros k v1 Hin. apply elem_of_cons in Hin as [[= -> ->]|Hin].
      * rewrite Hother by done. apply assoc_get_set_eq.
      * rewrite (Hupd _ _ Hin). do 2 f_equal. apply assoc_get_set_ne.
        intros ->. apply Hopt. apply list_elem_of_fmap. by exists (opt, v1).
Qed.

(** ** flatten *)

Lemma tree_ind' (P : tree -> Prop) :
  (forall v, P (Leaf v)) ->
  (forall items, Forall (fun kt => P kt.2) items -> P (Node items)) ->
  forall t, P t.
Proof.
  intros Hleaf Hnode. fix IH 1. intros [v|items]; [apply Hleaf|].
  apply Hnode. induction items as [|[k t] items IHitems]; constructor.
  - apply IH.
  - apply IHitems.
Qed.

Lemma flatten_at_prefix t : forall p k, k ∈ (flatten_at p t).*1 -> p `prefix_of` k.
Proof.
  induction t as [v|items IH] using tree_ind'; intros p k; simpl.
  - intros Hk. apply list_elem_of_singleton in Hk as ->. done.
  - induction IH as [|[key t] items Ht _ IHitems]; csimpl.
    + intros Hk. by apply elem_of_nil in Hk.
    + rewrite fmap_app, elem_of_app. intros [Hk|Hk]; [|by apply IHitems].
      apply Ht in Hk. by eapply prefix_app_l.
Qed.

Lemma flatten_items_keys p items k :
  k ∈ (flatten_items p items).*1 ->
  exists key rest, k = p ++ key :: rest /\ key ∈ items.*1.
Proof.
  unfold flatten_items. induction items as [|[key t] items IH]; csimpl.
  - intros Hk. by apply elem_of_nil in Hk.
  - rewrite fmap_app, elem_of_app. intros [Hk|Hk].
    + apply flatten_at_prefix in Hk as [rest ->]. exists key, rest.
      split; [by rewrite <- app_assoc|by left].
    + destruct (IH Hk) as (key' & rest & -> & Hin). exists key', rest.
      split; [done|by right].
Qed.

Lemma flatten_items_nonempty items k : k ∈ (flatten_items [] items).*1 -> k <> [].
Proof. intros Hk. by destruct (flatten_items_keys _ _ _ Hk) as (? & ? & -> & _). Qed.

Lemma flatten_at_NoDup t : forall p, wf_tree t = true -> NoDup (flatten_at p t).*1.
Proof.
  induction t as [v|items IH] using tree_ind'; intros p; simpl.
  - intros _. apply NoDup_singleton.
  - rewrite andb_true_iff, bool_decide_eq_true. intros [Hnd Hwf].
    induction IH as [|[key t] items Ht _ IHitems]; csimpl; [constructor|].
    csimpl in Hnd. apply NoDup_cons in Hnd as [Hkey Hnd].
    simpl in Hwf. apply andb_true_iff in Hwf as [Hwft Hwf].
    rewrite fmap_app. apply NoDup_app. split_and!; [by apply Ht| |by apply IHitems].
    intros k Hk1 Hk2. apply flatten_at_prefix in Hk1 as [rest1 ->].
    apply (flatten_items_keys p items) in Hk2 as (key' & rest2 & Heq & Hin).
    rewrite <- app_assoc in Heq. apply app_inv_head in Heq. simpl in Heq.
    injection Heq as -> _. done.
Qed.

Lemma flatten_items_NoDup items :
  wf_tree (Node items) = true -> NoDup (flatten_items [] items).*1.
Proof. apply (flatten_at_NoDup (Node items) []). Qed.

(** ** nested_set_dict and unflatten *)

Lemma lookup_path_leaf p v : p <> [] -> lookup_path p (Leaf v) = None.
Proof. by destruct p. Qed.

Lemma lookup_path_empty p : p <> [] -> lookup_path p (Node []) = None.
Proof. by destruct p. Qed.

Lemma lookup_path_cons key rest d :
  lookup_path (key :: rest) (Node d)
  = match assoc_get key d with
    | Some t => lookup_path rest t
    | None => None
    end.
Proof. done. Qed.

(** The new key is set. *)
Lemma nested_set_dict_new keys : forall d v d',
  nested_set_dict d keys v = Ok d' ->
  lookup_path keys (Node d') = Some (Leaf v).
Proof.
  induction keys as [|key rest IH]; intros d v d'; [done|].
  cbn [nested_set_dict]. destruct rest as [|key2 rest].
  - destruct (assoc_mem key d); [done|]. intros [= <-].
    by rewrite lookup_path_cons, assoc_get_set_eq.
  - destruct (assoc_get key d) as [[u|sub]|]; [done|..].
    + destruct (nested_set_dict sub (key2 :: rest) v) as [sub'|] eqn:E; [|done].
      cbn [res_bind]. intros [= <-]. rewrite lookup_path_cons, assoc_get_set_eq. by eapply IH.
    + destruct (nested_set_dict [] (key2 :: rest) v) as [sub'|] eqn:E; [|done].
      cbn [res_bind]. intros [= <-]. rewrite lookup_path_cons, assoc_get_set_eq. by eapply IH.
Qed.

(** The leaves already there stay. *)
Lemma nested_set_dict_old keys : forall d v d' p u,
  nested_set_dict d keys v = Ok d' ->
  lookup_path p (Node d) = Some (Leaf u) ->
  lookup_path p (Node d') = Some (Leaf u).
Proof.
  induction keys as [|key rest IH]; intros d v d' p u; [done|].
  destruct p as [|k p]; [done|].
  cbn [nested_set_dict]. rewrite !lookup_path_cons.
  destruct (decide (k = key)) as [->|Hne].
  - destruct rest as [|key2 rest].
    + unfold assoc_mem. destruct (assoc_get key d); done.
    + destruct (assoc_get key d) as [[u'|sub]|]; [done| |done].
      destruct (nested_set_dict sub (key2 :: rest) v) as [sub'|] eqn:E; [|done].
      cbn [res_bind]. intros [= <-]. rewrite assoc_get_set_eq.
      destruct p as [|k' p]; [done|]. by eapply IH.
  - assert (forall t, assoc_get k (assoc_set key t d) = assoc_get k d) as Hk
      by (intros; by apply assoc_get_set_ne).
    destruct rest as [|key2 rest].
    + destruct (assoc_mem key d); [done|]. intros [= <-]. by rewrite Hk.
    + destruct (assoc_get key d) as [[u'|sub]|]; [done|..].
      * destruct (nested_set_dict sub (key2 :: rest) v) as [sub'|]; [|done].
        cbn [res_bind]. intros [= <-]. by rewrite Hk.
      * destruct (nested_set_dict [] (key2 :: rest) v) as [sub'|]; [|done].
        cbn [res_bind]. intros [= <-]. by rewrite Hk.
Qed.

(** Whatever is found afterwards lies on the new key or was there before. *)
Lemma nested_set_dict_shape keys : forall d v d' p t,
  nested_set_dict d keys v = Ok d' ->
  p <> [] ->
  lookup_path p (Node d') = Some t ->
  (p `prefix_of` keys /\ forall u, t = Leaf u -> p = keys)
  \/ (exists t0, lookup_path p (Node d) = Some t0 /\ forall u, t = Leaf u -> t0 = Leaf u).
Proof.
  induction keys as [|key rest IH]; intros d v d' p t; [done|].
  destruct p as [|k p]; [done|]. intros Hset _.
  cbn [nested_set_dict] in Hset. rewrite !lookup_path_cons.
  destruct (decide (k = key)) as [->|Hne].
  - destruct rest as [|key2 rest].
    + destruct (assoc_mem key d); [done|]. injection Hset as <-.
      rewrite assoc_get_set_eq. destruct p as [|k' p]; [|done].
      intros _. left. split; [apply prefix_cons, prefix_nil|done].
    + assert (forall sub sub',
        nested_set_dict sub (key2 :: rest) v = Ok sub' ->
        lookup_path p (Node sub') = Some t ->
        (key :: p `prefix_of` key :: key2 :: rest
           /\ forall u, t = Leaf u -> key :: p = key :: key2 :: rest)
        \/ (p <> [] /\ exists t0, lookup_path p (Node sub) = Some t0
             /\ forall u, t = Leaf u -> t0 = Leaf u)) as Hsub.
      { intros sub sub' Hs Hl. destruct p as [|k' p].
        - left. injection Hl as <-. split; [|done]. apply prefix_cons, prefix_nil.
        - destruct (IH _ _ _ (k' :: p) t Hs) as [[Hpre Hleaf]|Hold]; [done|exact Hl|..].
          + left. split; [by apply prefix_cons|]. intros u Hu. f_equal. by eapply Hleaf.
          + right. done. }
      destruct (assoc_get key d) as [[u'|sub]|] eqn:Hget; [done|..].
      * destruct (nested_set_dict sub (key2 :: rest) v) as [sub'|] eqn:E; [|done].
        injection Hset as <-. rewrite assoc_get_set_eq. intros Hl.
        destruct (Hsub _ _ E Hl) as [?|(_ & Hold)]; [by left|by right].
      * destruct (nested_set_dict [] (key2 :: rest) v) as [sub'|] eqn:E; [|done].
        injection Hset as <-. rewrite assoc_get_set_eq. intros Hl.
        destruct (Hsub _ _ E Hl) as [?|(Hp & t0 & Hold & _)]; [by left|].
        by rewrite lookup_path_empty in Hold.
  - assert (forall t', assoc_get k (assoc_set key t' d) = assoc_get k d) as Hk
      by (intros; by apply assoc_get_set_ne).
    assert (forall t', d' = assoc_set key t' d ->
      match assoc_get k d' with Some t1 => lookup_path p t1 | None => None end = Some t ->
      exists t0, match assoc_get k d with Some t1 => lookup_path p t1 | None => None end
                 = Some t0 /\ forall u, t = Leaf u -> t0 = Leaf u) as Hsame.
    { intros t' -> Hl. rewrite Hk in Hl. by exists t. }
    intros Hl. right. destruct rest as [|key2 rest].
    + destruct (assoc_mem key d); [done|]. injection Hset as <-. by eapply Hsame.
    + destruct (assoc_get key d) as [[u'|sub]|]; [done|..].
      * destruct (nested_set_dict sub (key2 :: rest) v) as [sub'|]; [|done].
        injection Hset as <-. by eapply Hsame.
      * destruct (nested_set_dict [] (key2 :: rest) v) as [sub'|]; [|done].
        injection Hset as <-. by eapply Hsame.
Qed.

(** When the call returns. *)
Lemma nested_set_dict_ok keys : forall d v,
  keys <> [] ->
  lookup_path keys (Node d) = None ->
  (forall p u, p `prefix_of` keys -> lookup_path p (Node d) <> Some (Leaf u)) ->
  exists d', nested_set_dict d keys v = Ok d'.
Proof.
  induction keys as [|key rest IH]; intros d v Hne Hnone Hpre; [done|].
  cbn [nested_set_dict]. rewrite lookup_path_cons in Hnone.
  destruct rest as [|key2 rest].
  - unfold assoc_mem. destruct (assoc_get key d); [done|]. by eexists.
  - destruct (assoc_get key d) as [[u|sub]|] eqn:Hget.
    + destruct (Hpre [key] u).
      * apply prefix_cons, prefix_nil.
      * by rewrite lookup_path_cons, Hget.
    + destruct (IH sub v) as [sub' ->]; [done|done| |by eexists].
      intros p u Hp. specialize (Hpre (key :: p) u (prefix_cons _ _ _ Hp)).
      by rewrite lookup_path_cons, Hget in Hpre.
    + destruct (IH [] v) as [sub' ->]; [done|done| |by eexists].
      intros p u _. by destruct p.
Qed.

Lemma prefix_free_spec keys :
  prefix_free keys = true ->
  forall k1 k2, k1 ∈ keys -> k2 ∈ keys -> k1 `prefix_of` k2 -> k1 = k2.
Proof.
  unfold prefix_free. rewrite forallb_forall. intros Hall k1 k2 H1 H2 Hpre.
  apply list_elem_of_In in H1, H2. specialize (Hall k1 H1).
  rewrite forallb_forall in Hall. specialize (Hall k2 H2).
  rewrite bool_decide_true in Hall by done. by apply bool_decide_eq_true in Hall.
Qed.

Lemma unflatten_into_ok f : forall d K,
  shape_inv d K ->
  (forall k, k ∈ f.*1 -> k <> []) ->
  NoDup (K ++ f.*1) ->
  (forall k1 k2, k1 ∈ K ++ f.*1 -> k2 ∈ K ++ f.*1 -> k1 `prefix_of` k2 -> k1 = k2) ->
  exists d',
    unflatten_into d f = Ok d'
    /\ (forall k v, (k, v) ∈ f -> lookup_path k (Node d') = Some (Leaf v))
    /\ (forall p u, lookup_path p (Node d) = Some (Leaf u) ->
          lookup_path p (Node d') = Some (Leaf u)).
Proof.
  induction f as [|[k0 v0] f IH]; intros d K Hinv Hne Hnd Hfree.
  - exists d. split_and!; [done| |done]. intros k v Hin. by apply elem_of_nil in Hin.
  - csimpl in *.
    assert (k0 ∈ K ++ k0 :: f.*1) as Hk0 by (apply elem_of_app; right; by left).
    assert (k0 ∉ K) as HnotK.
    { apply NoDup_app in Hnd as (_ & Hdisj & _). intros Hin.
      apply (Hdisj _ Hin). by left. }
    assert (forall k, k ∈ K -> k ∈ K ++ k0 :: f.*1) as HK
      by (intros; apply elem_of_app; by left).
    destruct (nested_set_dict_ok k0 d v0) as [d1 Hset].
    + apply Hne. by left.
    + destruct (lookup_path k0 (Node d)) as [t|] eqn:Hl; [|done].
      destruct (Hinv k0 t) as (k & Hk & Hpre & _); [apply Hne; by left|done|].
      rewrite (Hfree k0 k) in HnotK by auto. done.
    + intros p u Hpre Hl. destruct (decide (p = [])) as [->|Hp]; [done|].
      destruct (Hinv p _ Hp Hl) as (k & Hk & _ & Hleaf).
      rewrite <- (Hleaf u eq_refl) in Hk.
      rewrite (Hfree p k0) in Hk by auto. done.
    + simpl. rewrite Hset. cbn [res_bind].
      destruct (IH d1 (K ++ [k0])) as (d' & Hrun & Hnew & Hold).
      * intros p t Hp Hl.
        destruct (nested_set_dict_shape _ _ _ _ _ _ Hset Hp Hl)
          as [[Hpre Hleaf]|(t0 & Hl0 & Hleaf)].
        -- exists k0. split_and!; [|done..]. apply elem_of_app. right. by left.
        -- destruct (Hinv p t0 Hp Hl0) as (k & Hk & Hpre & Hleaf0).
           exists k. split_and!; [apply elem_of_app; by left|done|].
           intros u Hu. eapply Hleaf0, Hleaf, Hu.
      * intros k Hk. apply Hne. by right.
      * by rewrite <- app_assoc.
      * rewrite <- app_assoc. done.
      * exists d'. split_and!; [done| |].
        -- intros k v Hin. apply elem_of_cons in Hin as [[= -> ->]|Hin]; [|by apply Hnew].
           apply Hold. by eapply nested_set_dict_new.
        -- intros p u Hl. apply Hold. by eapply nested_set_dict_old.
Qed.

Lemma lookup_path_app p : forall q t,
  lookup_path (p ++ q) t
  = match lookup_path p t with
    | Some t' => lookup_path q t'
    | None => None
    end.
Proof.
  induction p as [|k p IH]; intros q t; [done|].
  simpl. destruct t as [v|d]; [done|]. destruct (assoc_get k d); [apply IH|done].
Qed.

Lemma unflatten_into_leaves f : forall d d',
  unflatten_into d f = Ok d' ->
  forall k v, (k, v) ∈ f -> lookup_path k (Node d') = Some (Leaf v).
Proof.
  induction f as [|[k0 v0] f IH]; intros d d' Hrun k v Hin.
  - by apply elem_of_nil in Hin.
  - simpl in Hrun. destruct (nested_set_dict d k0 v0) as [d1|] eqn:Hset; [|done].
    simpl in Hrun. apply elem_of_cons in Hin as [[= -> ->]|Hin]; [|by eapply IH].
    clear IH. apply nested_set_dict_new in Hset.
    revert d1 d' Hrun Hset. induction f as [|[k1 v1] f IHf]; intros d1 d' Hrun Hset.
    + by injection Hrun as <-.
    + simpl in Hrun. destruct (nested_set_dict d1 k1 v1) as [d2|] eqn:Hset2; [|done].
      simpl in Hrun. eapply IHf; [done|]. by eapply nested_set_dict_old.
Qed.

Lemma lists_meet_lists_false base override :
  lists_meet_lists base override = false ->
  exists k l1 v2, (k, PList l1) ∈ override /\ assoc_get k base = Some v2 /\ is_list v2 = false.
Proof.
  unfold lists_meet_lists. induction override as [|[k v1] override IH]; simpl; [done|].
  rewrite andb_false_iff. intros [Hhead|Htail].
  - destruct (assoc_get k base) as [v2|] eqn:Hget; [|done].
    destruct v1; try done. destruct (is_list v2) eqn:Hv2; [done|].
    eexists k, _, v2. split_and!; [by left|done..].
  - destruct (IH Htail) as (k' & l1 & v2 & Hin & Hrest). exists k', l1, v2.
    split; [by right|done].
Qed.


(** ** _update_config *)

(** C10: when the override holds a list at a flattened key at which the base
    holds a value that is not a list, the merge raises the assertion error
    of [assert isinstance(val2, list)] and returns no result. *)
Theorem update_config_type_mismatch base override k l1 v2 :
  (k, PList l1) ∈ flatten_items [] override ->
  assoc_get k (flatten_items [] base) = Some v2 ->
  is_list v2 = false ->
  _update_config (Node base) (Node override) = Err AssertionError.
Proof.
  intros Hin Hget Hv2. unfold _update_config. simpl.
  by rewrite (update_items_mismatch k l1 _ _ v2).
Qed.

(** The default image is a string and a profile gives a list for it. *)
Lemma update_config_type_mismatch_witness :
  _update_config (Node mode_base) (Node list_override) = Err AssertionError.
Proof.
  apply (update_config_type_mismatch mode_base list_override
           ["image"] [PStr "a"; PStr "b"] (PStr "jupyterhub/singleuser:latest")).
  - vm_compute. by left.
  - reflexivity.
  - reflexivity.
Defined.

(** C1, as the code has it: when the two mappings are mergeable (a list of
    the override meets only a list of the base, and no flattened key of the
    two is a proper prefix of another), the merge returns a mapping in which
    a list of the override stands in front of the list of the base, any other
    value of the override stands at its key, and every key of the base that
    the override does not have keeps its value. *)
Theorem update_config_merges base override :
  mergeable base override = true ->
  exists r, _update_config (Node base) (Node override) = Ok r
            /\ merged_as_specified base override r.
Proof.
  unfold mergeable, merged_as_specified.
  rewrite !andb_true_iff. intros [[[Hwfb Hwfo] Hmeet] Hfree].
  apply flatten_items_NoDup in Hwfb, Hwfo.
  set (fb := flatten_items [] base) in *. set (fo := flatten_items [] override) in *.
  destruct (update_items_ok fo fb Hwfo Hmeet) as (config' & Hrun & Hkeys & Hnd & Hother & Hupd).
  specialize (Hnd Hwfb).
  destruct (unflatten_into_ok config' [] []) as (r & Hr & Hnew & _).
  - intros p t Hp Hl. by rewrite lookup_path_empty in Hl.
  - intros k Hk. apply Hkeys, elem_of_app in Hk as [Hk|Hk];
      by eapply flatten_items_nonempty.
  - done.
  - simpl. intros k1 k2 H1 H2. apply (prefix_free_spec _ Hfree); by apply Hkeys.
  - exists r. split.
    + unfold _update_config. simpl. fold fb fo. by rewrite Hrun.
    + split_and!.
      * intros k l1 l2 Hin Hget. apply Hnew, assoc_get_elem.
        by rewrite (Hupd _ _ Hin), Hget.
      * intros k v1 Hin Hcase. apply Hnew, assoc_get_elem. rewrite (Hupd _ _ Hin).
        f_equal. unfold merge_value. destruct Hcase as [Hl|Hnone].
        -- by destruct v1.
        -- rewrite Hnone. by destruct v1.
      * intros k v Hin Hnone. apply Hnew, assoc_get_elem.
        rewrite Hother by (by apply assoc_get_None). by apply elem_assoc_get.
Qed.

(** Two layers that are mergeable. *)
Lemma update_config_merges_witness :
  exists r, _update_config (Node layer_base) (Node layer_override) = Ok r
            /\ merged_as_specified layer_base layer_override r.
Proof. apply (update_config_merges layer_base layer_override). vm_compute. reflexivity. Defined.

(** C1, as it is worded, at a base whose "mode" is a string and an override
    whose "mode" is a mapping: the flattened keys are [mode] and
    [mode, replicated, replicas], [unflatten] finds the string on the way to
    the second and calls [setdefault] on it, and the merge raises instead of
    returning. *)
Lemma update_config_shape_conflict :
  _update_config (Node mode_base) (Node mode_override) = Err (AttributeError "setdefault")
  /\ ~ (exists r, _update_config (Node mode_base) (Node mode_override) = Ok r
                  /\ merged_as_specified mode_base mode_override r).
Proof.
  split; [reflexivity|]. intros (r & Hr & _). vm_compute in Hr. discriminate.
Qed.

(** The merge returns for mergeable mappings only. *)
Lemma update_config_returns_only_mergeable base override r :
  wf_tree (Node base) = true -> wf_tree (Node override) = true ->
  _update_config (Node base) (Node override) = Ok r ->
  mergeable base override = true.
Proof.
  intros Hwfb Hwfo Hrun. unfold mergeable. rewrite Hwfb, Hwfo. cbn [andb].
  pose proof (flatten_items_NoDup _ Hwfb) as Hndb.
  pose proof (flatten_items_NoDup _ Hwfo) as Hndo.
  destruct (lists_meet_lists (flatten_items [] base) (flatten_items [] override)) eqn:Hmeet.
  - cbn [andb]. unfold _update_config in Hrun. simpl in Hrun.
    destruct (update_items_ok _ _ Hndo Hmeet) as (config' & Hloop & _ & _ & Hother & Hupd).
    rewrite Hloop in Hrun. simpl in Hrun.
    assert (forall k, k ∈ (flatten_items [] base).*1 ++ (flatten_items [] override).*1 ->
              exists v, lookup_path k (Node r) = Some (Leaf v)) as Hleaf.
    { intros k Hk.
      assert (exists v, assoc_get k config' = Some v) as [v Hv].
      { destruct (assoc_get k (flatten_items [] override)) as [v1|] eqn:Hov.
        - apply assoc_get_elem in Hov. rewrite (Hupd _ _ Hov). by eexists.
        - apply assoc_get_None in Hov. rewrite (Hother _ Hov).
          apply elem_of_app in Hk as [Hk|Hk]; [|done].
          by apply assoc_get_is_Some in Hk as [v ->]; eexists. }
      exists v. eapply unflatten_into_leaves; [exact Hrun|]. by apply assoc_get_elem. }
    unfold prefix_free. apply forallb_forall. intros k1 H1. apply forallb_forall. intros k2 H2.
    apply list_elem_of_In in H1, H2.
    destruct (decide (k1 `prefix_of` k2)) as [[rest ->]|Hno].
    + rewrite bool_decide_true by (by exists rest). simpl. apply bool_decide_eq_true.
      destruct (Hleaf _ H1) as [v1 Hl1], (Hleaf _ H2) as [v2 Hl2].
      rewrite lookup_path_app, Hl1 in Hl2. destruct rest; [by rewrite app_nil_r|done].
    + by rewrite bool_decide_false.
  - destruct (lists_meet_lists_false _ _ Hmeet) as (k & l1 & v2 & Hin & Hget & Hv2).
    unfold _update_config in Hrun. simpl in Hrun.
    by rewrite (update_items_mismatch k l1 _ _ v2) in Hrun.
Qed.

(** ** Lookup *)

Section lifecycle.
Variable orch : orchestrator.
Variable self : spawner.

(** C5: what [get_service] does for each answer to the remote lookup: a
    service is returned and its identifier stored; NotFound and a server
    error (status 500 to 599) clear the identifier and report no service; a
    client error (status 400 to 499) is raised again as it came, the
    identifier untouched. *)
Theorem get_service_outcomes (w : world) :
  let reply :=
    services_get orch
      (trace w ++ [ELog DEBUG "Getting Docker service {}" [service_name self]])
      (service_name self) in
  let result := get_service orch self w in
  (forall service, reply = Ok service ->
      result.1 = Ret (Some service) /\ service_id result.2 = svc_id service)
  /\ (forall status, reply = Err (NotFound status) ->
      result.1 = Ret None /\ service_id result.2 = "")
  /\ (forall status, reply = Err (APIError status) -> is_server_error status = true ->
      result.1 = Ret None /\ service_id result.2 = "")
  /\ (forall status, reply = Err (APIError status) -> is_client_error status = true ->
      result.1 = Raise (APIError status) /\ service_id result.2 = service_id w).
Proof.
  cbv zeta. unfold get_service, bind, try_except, log, modify, remote. simpl.
  split_and!.
  - intros service ->. done.
  - intros status ->. done.
  - intros status -> Hs. simpl. by rewrite Hs.
  - intros status -> Hc. simpl.
    assert (is_server_error status = false) as ->; [|done].
    destruct status as [c|]; [|done]. simpl in *. lia.
Qed.
End lifecycle.

(** A service found, NotFound, status 503 and status 400. *)
Lemma get_service_outcomes_witness :
  ((get_service (answering (Ok live_service) (Ok true) (Ok [])) alice fresh).1
     = Ret (Some live_service)
   /\ service_id (get_service (answering (Ok live_service) (Ok true) (Ok [])) alice fresh).2
     = "k3x9q0v7m2")
  /\ ((get_service (answering (Err (NotFound (Some 404%Z))) (Ok true) (Ok [])) alice started).1
        = Ret None
      /\ service_id (get_service (answering (Err (NotFound (Some 404%Z))) (Ok true) (Ok []))
                       alice started).2 = "")
  /\ ((get_service (answering (Err (APIError (Some 503%Z))) (Ok true) (Ok [])) alice started).1
        = Ret None
      /\ service_id (get_service (answering (Err (APIError (Some 503%Z))) (Ok true) (Ok []))
                       alice started).2 = "")
  /\ ((get_service (answering (Err (APIError (Some 400%Z))) (Ok true) (Ok [])) alice started).1
        = Raise (APIError (Some 400%Z))
      /\ service_id (get_service (answering (Err (APIError (Some 400%Z))) (Ok true) (Ok []))
                       alice started).2 = "k3x9q0v7m2").
Proof.
  split; [|split; [|split]].
  - destruct (get_service_outcomes (answering (Ok live_service) (Ok true) (Ok []))
                alice fresh) as (H & _).
    apply H. reflexivity.
  - destruct (get_service_outcomes (answering (Err (NotFound (Some 404%Z))) (Ok true) (Ok []))
                alice started) as (_ & H & _).
    apply (H (Some 404%Z)). reflexivity.
  - destruct (get_service_outcomes (answering (Err (APIError (Some 503%Z))) (Ok true) (Ok []))
                alice started) as (_ & _ & H & _).
    apply (H (Some 503%Z)); reflexivity.
  - destruct (get_service_outcomes (answering (Err (APIError (Some 400%Z))) (Ok true) (Ok []))
                alice started) as (_ & _ & _ & H).
    apply (H (Some 400%Z)); reflexivity.
Defined.

(** ** Adoption *)

Lemma startswith_app p : forall s, startswith p s = true -> exists rest, s = p +:+ rest.
Proof.
  induction p as [|a p IH]; intros s; simpl.
  - intros _. by exists s.
  - destruct s as [|b s]; [done|]. destruct (decide (a = b)) as [->|]; [|done].
    intros Hs. destruct (IH _ Hs) as [rest ->]. by exists rest.
Qed.

Lemma reuse_token_spec envs : forall w,
  exists w', reuse_token envs w = (Ret tt, w')
    /\ api_token w' = recovered_token envs (api_token w)
    /\ service_id w' = service_id w /\ trace w' = trace w /\ store w' = store w.
Proof.
  unfold recovered_token. induction envs as [|line envs IH]; intros w.
  - by exists w.
  - cbn [reuse_token find].
    destruct (startswith "JPY_API_TOKEN=" line) eqn:Hs; [|apply IH].
    apply startswith_app in Hs as [rest ->].
    by exists (set_api_token rest w).
Qed.

Section adoption.
Variable orch : orchestrator.
Variable self : spawner.

Lemma get_service_found w service :
  services_get orch
    (trace w ++ [ELog DEBUG "Getting Docker service {}" [service_name self]])
    (service_name self) = Ok service ->
  get_service orch self w
  = (Ret (Some service),
     set_service_id (svc_id service)
       (add_event (ECall (ServicesGet (service_name self)))
          (add_event (ELog DEBUG "Getting Docker service {}" [service_name self]) w))).
Proof.
  intros Hreply. unfold get_service, bind, try_except, log, modify, remote. simpl.
  by rewrite Hreply.
Qed.

Lemma start_found (fuel : nat) (w : world) (service : service) :
  services_get orch
    (trace w ++ [ELog DEBUG "Getting Docker service {}" [service_name self]])
    (service_name self) = Ok service ->
  exists w',
    start orch self fuel w
    = (match svc_env service with
       | Some _ => Ret (service_name self, port self)
       | None => Raise (KeyError "Env")
       end, w')
    /\ trace w'
       = trace w ++ [ ELog DEBUG "Getting Docker service {}" [service_name self];
                      ECall (ServicesGet (service_name self));
                      ELog INFO "Found existing Docker service {} with id {}"
                        [service_name self; first7 (svc_id service)] ]
    /\ service_id w' = svc_id service
    /\ api_token w'
       = match svc_env service with
         | Some envs => recovered_token envs (api_token w)
         | None => api_token w
         end.
Proof.
  intros Hreply. unfold start, bind at 1 2.
  rewrite (get_service_found w service Hreply).
  unfold bind, log, modify, gets. cbn [set_service_id service_id fst snd].
  destruct (svc_env service) as [envs|] eqn:Henv.
  - match goal with |- context [reuse_token envs ?w0] =>
      destruct (reuse_token_spec envs w0) as (w' & -> & Htok & Hid & Htr & _) end.
    exists w'. rewrite Htr, Hid, Htok. simpl. rewrite <- !app_assoc. done.
  - eexists. split; [reflexivity|]. simpl. rewrite <- !app_assoc. done.
Qed.

(** C7, amended: when the lookup finds a service, [start] makes the lookup
    call and no other remote call, so it creates nothing; the stored
    identifier becomes the one of the service found, so it is unchanged
    exactly when that identifier was stored already (a second [start] in
    sequence) and overwritten otherwise; and when the service has an
    environment list, [start] returns the service name and the port and
    takes as [api_token] what follows [JPY_API_TOKEN=] in the first entry
    that starts with it (keeping the old token when there is no such
    entry). *)
Theorem start_adopts (fuel : nat) (w : world) (service : service) :
  services_get orch
    (trace w ++ [ELog DEBUG "Getting Docker service {}" [service_name self]])
    (service_name self) = Ok service ->
  let result := start orch self fuel w in
  trace result.2
  = trace w ++ [ ELog DEBUG "Getting Docker service {}" [service_name self];
                 ECall (ServicesGet (service_name self));
                 ELog INFO "Found existing Docker service {} with id {}"
                   [service_name self; first7 (svc_id service)] ]
  /\ count_events is_create (trace result.2) = count_events is_create (trace w)
  /\ service_id result.2 = svc_id service
  /\ (service_id result.2 = service_id w <-> service_id w = svc_id service)
  /\ (forall envs, svc_env service = Some envs ->
        result.1 = Ret (service_name self, port self)
        /\ api_token result.2 = recovered_token envs (api_token w)).
Proof.
  intros Hreply. destruct (start_found fuel w service Hreply) as (w' & -> & Htr & Hid & Htok).
  cbv zeta. cbn [fst snd]. split_and!; [done| |done| |].
  - rewrite Htr. unfold count_events. rewrite List.filter_app, length_app. simpl. lia.
  - rewrite Hid. split; congruence.
  - intros envs Henv. rewrite Henv in Htok. by rewrite Henv.
Qed.
End adoption.

(** A second start: the service is there, with the token in its environment. *)
Lemma start_adopts_witness :
  let result := start (answering (Ok live_service) (Ok true) (Ok [])) alice 0 started in
  result.1 = Ret ("jupyter-alice", 8888%Z)
  /\ service_id result.2 = "k3x9q0v7m2"
  /\ service_id result.2 = service_id started
  /\ api_token result.2 = "secret=1"
  /\ count_events is_create (trace result.2) = 0
  /\ trace result.2
     = [ ELog DEBUG "Getting Docker service {}" ["jupyter-alice"];
         ECall (ServicesGet "jupyter-alice");
         ELog INFO "Found existing Docker service {} with id {}" ["jupyter-alice"; "k3x9q0v"] ].
Proof.
  destruct (start_adopts (answering (Ok live_service) (Ok true) (Ok [])) alice 0 started
              live_service eq_refl) as (Htrace & Hcreate & Hid & Hsame & Henv).
  destruct (Henv _ eq_refl) as [Hret Htok].
  cbv zeta. split_and!;
    [exact Hret|exact Hid|exact (proj2 Hsame eq_refl)|exact Htok|exact Hcreate|exact Htrace].
Defined.

(** C7, as it is worded, at a spawner that holds no identifier (after a
    restart of the hub without persisted state, say) and whose service is
    found: line 203 stores the identifier of the service found, so the stored
    identifier goes from the empty string to the one of the service. *)
Lemma adoption_overwrites_identifier :
  let orch := answering (Ok live_service) (Ok true) (Ok []) in
  (start orch alice 0 fresh).1 = Ret ("jupyter-alice", 8888%Z)
  /\ count_events is_create (trace (start orch alice 0 fresh).2) = 0
  /\ service_id fresh = ""
  /\ service_id (start orch alice 0 fresh).2 = "k3x9q0v7m2"
  /\ ~ (forall w service,
          services_get orch
            (trace w ++ [ELog DEBUG "Getting Docker service {}" [service_name alice]])
            (service_name alice) = Ok service ->
          service_id (start orch alice 0 w).2 = service_id w).
Proof.
  cbv zeta. split_and!; [reflexivity..|].
  intros Hsame. specialize (Hsame fresh live_service eq_refl).
  vm_compute in Hsame. discriminate.
Qed.

(** ** Removal *)

Section stop_and_poll.
Variable orch : orchestrator.
Variable self : spawner.

(** A removal that succeeds is followed by [clear_state]. *)
Lemma stop_removed w b :
  removal_reply orch self w = Ok b ->
  (stop orch self w).1 = Ret tt
  /\ service_id (stop orch self w).2 = ""
  /\ api_token (stop orch self w).2 = "".
Proof.
  unfold removal_reply, stop, bind, try_except, log, modify, gets, remote, clear_state.
  simpl. intros ->. by destruct b.
Qed.

(** With a [server_name] attribute the handlers log and [clear_state] runs. *)
Lemma stop_swallows_with_server_name w e sn :
  server_name self = Some sn ->
  removal_reply orch self w = Err e -> removal_error e = true ->
  (stop orch self w).1 = Ret tt
  /\ service_id (stop orch self w).2 = ""
  /\ api_token (stop orch self w).2 = "".
Proof.
  unfold removal_reply, stop, bind, try_except, log, modify, gets, remote, clear_state,
    self_server_name.
  simpl. intros -> -> He. by destruct e.
Qed.

(** Without one, evaluating [self.server_name] in the handler raises, and
    [clear_state] is not reached. *)
Lemma stop_raises_without_server_name w e :
  server_name self = None ->
  removal_reply orch self w = Err e -> removal_error e = true ->
  (stop orch self w).1 = Raise (AttributeError "server_name")
  /\ service_id (stop orch self w).2 = service_id w
  /\ api_token (stop orch self w).2 = api_token w.
Proof.
  unfold removal_reply, stop, bind, try_except, log, modify, gets, remote, clear_state,
    self_server_name.
  simpl. intros -> -> He. by destruct e.
Qed.

(** ** Poll *)

(** C2, on the code: [poll] calls the module [docker], which raises before
    any task is listed; no verdict is returned, for any task list. *)
Theorem poll_raises (w : world) :
  poll orch self w = (Raise (TypeError "'module' object is not callable"), w).
Proof. reflexivity. Qed.
End stop_and_poll.

(** C6, on the code: the service is already gone, the removal raises
    NotFound, the handler evaluates [self.server_name], and [stop] raises
    with the identifier and the token still stored. *)
Theorem stop_raises_when_service_is_gone :
  let gone := answering (Err (NotFound (Some 404%Z))) (Err (NotFound (Some 404%Z))) (Ok []) in
  (stop gone alice started).1 = Raise (AttributeError "server_name")
  /\ service_id (stop gone alice started).2 = "k3x9q0v7m2"
  /\ api_token (stop gone alice started).2 = "secret".
Proof. cbv zeta. split_and!; reflexivity. Qed.

(** The rest of [poll], from a task list on. *)
Example poll_tasks_running :
  (poll_tasks (answering (Ok live_service) (Ok true) (Ok [])) alice
     [task_in "running"] started).1 = Ret PNone.
Proof. reflexivity. Qed.

Example poll_tasks_empty :
  poll_tasks (answering (Ok live_service) (Ok true) (Ok [])) alice [] started
  = (Ret (PInt 0),
     add_event (ELog WARN "Tasks for service {} not found" ["jupyter-alice"]) started).
Proof. reflexivity. Qed.

Example poll_tasks_rejected :
  let result := poll_tasks (answering (Ok live_service) (Ok true) (Ok [])) alice
                  [task_in "rejected"] started in
  result.1 = Ret (PInt 0)
  /\ removal_calls (trace result.2) = 1
  /\ service_id result.2 = "".
Proof. cbv zeta. split_and!; reflexivity. Qed.

Example poll_tasks_running_and_rejected :
  let result := poll_tasks (answering (Ok live_service) (Ok true) (Ok [])) alice
                  [task_in "running"; task_in "rejected"] started in
  result.1 = Ret PNone
  /\ removal_calls (trace result.2) = 1.
Proof. cbv zeta. split_and!; reflexivity. Qed.

(** ** The readiness loop *)

Lemma has_state_cons state t tasks :
  has_state state (t :: tasks) = String.eqb (task_state t) state || has_state state tasks.
Proof. done. Qed.

Section readiness.
Variable orch : orchestrator.
Variable self : spawner.
Variable max_attempts : Z.

(** The [for] loop either returns False, on a rejected task or on a task
    met with the counter above the bound, or ends with the two flags. *)
Lemma wait_scan_spec attempt tasks : forall running preparing w,
  exists w',
    store w' = store w /\ service_id w' = service_id w /\ api_token w' = api_token w
    /\ ((wait_scan self max_attempts attempt tasks running preparing w
         = (Ret (inl (PBool false)), w')
         /\ (has_state "rejected" tasks = true
             \/ ((max_attempts < attempt)%Z /\ tasks <> [])))
        \/ (wait_scan self max_attempts attempt tasks running preparing w
            = (Ret (inr (running || has_state "running" tasks,
                         preparing || has_state "preparing" tasks)), w')
            /\ has_state "rejected" tasks = false
            /\ (tasks = [] \/ (attempt <= max_attempts)%Z))).
Proof.
  induction tasks as [|t tasks IH]; intros running preparing w.
  - exists w. split_and!; [done..|]. right. simpl. rewrite !orb_false_r. auto.
  - cbn [wait_scan]. rewrite !has_state_cons. unfold bind, log, modify. cbn [fst snd].
    set (w1 := add_event _ w).
    destruct (String.eqb (task_state t) "rejected") eqn:Hrej; cbn [orb].
    + exists w1. split_and!; [done..|]. left. split; [done|]. by left.
    + destruct (max_attempts <? attempt)%Z eqn:Hmax.
      * exists w1. split_and!; [done..|]. left. split; [done|]. right.
        split; [lia|done].
      * destruct (IH (if String.eqb (task_state t) "running" then true else running)
                     (if String.eqb (task_state t) "preparing" then true else preparing)
                     w1) as (w' & Hs & Hi & Ht & Hcase).
        exists w'. split_and!; [done..|].
        destruct Hcase as [[-> Hwhy]|(-> & Hnorej & Hbound)].
        -- left. split; [done|]. destruct Hwhy as [Hr|[? ?]]; [by left|].
           right. split; [done|done].
        -- right. split_and!; [|done|right; lia].
           do 3 f_equal.
           by destruct (String.eqb (task_state t) "running"), running,
                (String.eqb (task_state t) "preparing"), preparing.
Qed.

(** One turn: the counter moves by one exactly when no task of the list
    just read is preparing. *)
Lemma wait_iteration_counter running attempt w running' attempt' w' :
  wait_iteration orch self max_attempts (running, attempt) w
  = (Ret (inr (running', attempt')), w') ->
  exists tasks,
    list_tasks orch (trace w) (service_name self) = Ok tasks
    /\ attempt' = if has_state "preparing" tasks then attempt else (attempt + 1)%Z.
Proof.
  unfold wait_iteration. destruct running; [done|].
  unfold bind at 1, remote.
  destruct (list_tasks orch (trace w) (service_name self)) as [tasks|e]; [|done].
  set (w1 := add_event _ w). unfold bind at 1.
  destruct (wait_scan_spec attempt tasks false false w1)
    as (w2 & _ & _ & _ & [[-> _]|(-> & _)]); [done|].
  unfold bind, sleep, modify, ret. cbn [orb]. intros [= _ <- _].
  exists tasks. done.
Qed.

(** Lists that always hold a preparing task: the counter stays at 0, and
    the loop returns False only for a rejected task. *)
Lemma wait_loop_preparing :
  (0 <= max_attempts)%Z ->
  (forall tr name, exists tasks,
      list_tasks orch tr name = Ok tasks /\ has_state "preparing" tasks = true) ->
  forall fuel running w,
    match (wait_loop orch self max_attempts fuel (running, 0%Z) w).1 with
    | Ret (inr st) => st.2 = 0%Z
    | Ret (inl v) => v = PBool false -> rejected_seen orch
    | _ => False
    end.
Proof.
  intros Hmax Hprep. induction fuel as [|fuel IH]; intros running w; [done|].
  cbn [wait_loop]. unfold bind at 1, wait_iteration.
  destruct running; [done|].
  unfold bind at 1, remote.
  destruct (Hprep (trace w) (service_name self)) as (tasks & Hreply & Hhas).
  rewrite Hreply. set (w1 := add_event _ w). unfold bind at 1.
  destruct (wait_scan_spec 0 tasks false false w1)
    as (w2 & _ & _ & _ & [[-> Hwhy]|(-> & _)]).
  - cbn [fst snd ret]. intros _. destruct Hwhy as [Hrej|[? _]]; [|lia].
    by exists (trace w), (service_name self), tasks.
  - rewrite Hhas. unfold bind at 1, sleep, modify, ret. cbn [orb fst snd].
    apply IH.
Qed.

(** C4: the counter is incremented only by a turn whose task list holds no
    preparing task; and when every task list holds a preparing task (and
    the bound is not negative), then after any number of turns, 25 among
    them, the counter is still 0 and the loop has returned False only if
    some task list held a rejected task. *)
Theorem wait_preparing_costs_no_attempt :
  (forall running attempt w running' attempt' w',
      wait_iteration orch self max_attempts (running, attempt) w
      = (Ret (inr (running', attempt')), w') ->
      exists tasks,
        list_tasks orch (trace w) (service_name self) = Ok tasks
        /\ attempt' = if has_state "preparing" tasks then attempt else (attempt + 1)%Z)
  /\ ((0 <= max_attempts)%Z ->
      (forall tr name, exists tasks,
          list_tasks orch tr name = Ok tasks /\ has_state "preparing" tasks = true) ->
      forall fuel w,
        match (wait_loop orch self max_attempts fuel (false, 0%Z) w).1 with
        | Ret (inr st) => st.2 = 0%Z
        | Ret (inl v) => v = PBool false -> rejected_seen orch
        | _ => False
        end).
Proof.
  split.
  - apply wait_iteration_counter.
  - intros Hmax Hprep fuel w. by apply wait_loop_preparing.
Qed.

(** Lists that are always empty: every turn adds one to the counter and
    none tests it. *)
Lemma wait_loop_empty :
  (forall tr name, list_tasks orch tr name = Ok []) ->
  forall fuel attempt w,
    (wait_loop orch self max_attempts fuel (false, attempt) w).1
    = Ret (inr (false, (attempt + Z.of_nat fuel)%Z)).
Proof.
  intros Hempty. induction fuel as [|fuel IH]; intros attempt w.
  - simpl. by rewrite Z.add_0_r.
  - cbn [wait_loop]. unfold bind at 1, wait_iteration, bind at 1, remote.
    rewrite Hempty. unfold bind, sleep, modify, ret. cbn [wait_scan fst snd].
    unfold ret. rewrite IH. do 3 f_equal. lia.
Qed.
End readiness.

(** Twenty-five turns over a list with one preparing task, with the bound 20. *)
Lemma wait_preparing_costs_no_attempt_witness :
  match (wait_loop (answering (Ok live_service) (Ok true) (Ok [task_in "preparing"]))
           alice 20 25 (false, 0%Z) fresh).1 with
  | Ret (inr st) => st.2 = 0%Z
  | Ret (inl v) =>
      v = PBool false ->
      rejected_seen (answering (Ok live_service) (Ok true) (Ok [task_in "preparing"]))
  | _ => False
  end.
Proof.
  apply (wait_preparing_costs_no_attempt
           (answering (Ok live_service) (Ok true) (Ok [task_in "preparing"])) alice 20).
  - lia.
  - intros tr name. exists [task_in "preparing"]. split; reflexivity.
Defined.

(** C3, on the code: when the orchestrator lists no task, the counter is
    never tested: after any number of turns the loop is still running, with a
    counter as large as the number of turns, and the method has not returned;
    and when a task is running the method returns None, after the sleep of
    that turn, not True. *)
Theorem wait_for_running_tasks_defects :
  (forall fuel,
      (wait_loop (answering (Ok live_service) (Ok true) (Ok [])) alice 20 fuel
         (false, 0%Z) fresh).1 = Ret (inr (false, Z.of_nat fuel))
      /\ (wait_for_running_tasks (answering (Ok live_service) (Ok true) (Ok [])) alice 20
            fuel fresh).1 = OutOfFuel)
  /\ (forall fuel,
      wait_for_running_tasks (answering (Ok live_service) (Ok true) (Ok [task_in "running"]))
        alice 20 (S (S fuel)) fresh
      = (Ret PNone,
         add_event (ESleep 1)
           (add_event (ELog INFO "Waiting for service {}, current task status: {}"
                         ["jupyter-alice"; "running"])
              (add_event (ECall (Tasks "jupyter-alice")) fresh)))).
Proof.
  split.
  - intros fuel.
    pose proof (wait_loop_empty (answering (Ok live_service) (Ok true) (Ok [])) alice 20
                  (fun _ _ => eq_refl) fuel 0%Z fresh) as Hloop.
    rewrite Z.add_0_l in Hloop. split; [exact Hloop|].
    unfold wait_for_running_tasks, bind.
    destruct (wait_loop _ _ _ _ _ _) as [r w']. simpl in Hloop. by subst r.
  - intros fuel. reflexivity.
Qed.

(** ** Building the service configuration *)

Lemma store_only_ret {A} (a : A) : store_only (ret a).
Proof. by intros w. Qed.

Lemma store_only_raise {A} e : store_only (@raise A e).
Proof. by intros w. Qed.

Lemma store_only_lift {A} (r : res A) : store_only (lift r).
Proof. destruct r; [apply store_only_ret|apply store_only_raise]. Qed.

Lemma store_only_gets {A} (f : world -> A) : store_only (gets f).
Proof. by intros w. Qed.

Lemma store_only_bind {A B} (m : M A) (k : A -> M B) :
  store_only m -> (forall a, store_only (k a)) -> store_only (bind m k).
Proof.
  intros Hm Hk w. unfold bind. specialize (Hm w).
  destruct (m w) as [[a| |] w1]; [|done..].
  specialize (Hk a w1). destruct Hm as (? & ? & ?), Hk as (? & ? & ?).
  unfold same_but_store. simpl in *. split_and!; congruence.
Qed.

Lemma store_only_setitem l key v : store_only (setitem l key v).
Proof. by intros w. Qed.

Lemma store_only_getitem l key : store_only (getitem l key).
Proof.
  apply store_only_bind; [apply store_only_gets|]. intros r.
  destruct (assoc_get key r); [apply store_only_ret|apply store_only_raise].
Qed.

Lemma store_only_mapM {A B} (f : A -> M B) l :
  (forall a, store_only (f a)) -> store_only (mapM f l).
Proof.
  intros Hf. induction l as [|a l IH]; [apply store_only_ret|].
  cbn [mapM]. apply store_only_bind; [apply Hf|]. intros y.
  apply store_only_bind; [apply IH|]. intros ys. apply store_only_ret.
Qed.

Create HintDb store_only.
#[local] Hint Resolve store_only_ret store_only_raise store_only_lift store_only_gets
  store_only_bind store_only_setitem store_only_getitem store_only_mapM : store_only.

Section building.
Variable self : spawner.

Lemma store_only_format_value v : store_only (format_value self v).
Proof. destruct v; simpl; eauto with store_only. Qed.

Lemma store_only_format_mount mount : store_only (_format_mount self mount).
Proof.
  pose proof store_only_format_value.
  destruct mount; simpl; eauto 20 with store_only.
Qed.

Lemma store_only_format_mounts config : store_only (format_mounts self config).
Proof.
  pose proof store_only_format_mount.
  unfold format_mounts. repeat case_match; eauto 10 with store_only.
  apply store_only_bind; [apply store_only_gets|].
  intros r. case_match; eauto 10 with store_only.
Qed.

Lemma store_only_add_labels profile_name config :
  store_only (add_labels self profile_name config).
Proof. unfold add_labels. repeat case_match; eauto with store_only. Qed.

Lemma store_only_merge_layers : store_only (merge_layers self).
Proof.
  unfold merge_layers.
  apply store_only_bind; [apply store_only_gets|]. intros token. cbv zeta.
  apply store_only_bind.
  - case_match; eauto with store_only.
  - intros config. case_match; eauto with store_only.
Qed.

(** The build makes no remote call, logs nothing and does not sleep. *)
Lemma get_service_config_store_only : store_only (get_service_config self).
Proof.
  unfold get_service_config.
  apply store_only_bind; [apply store_only_merge_layers|]. intros merged.
  apply store_only_bind; [apply store_only_add_labels|]. intros config.
  apply store_only_format_mounts.
Qed.

(** With a default configuration that is not empty, the bare name
    [default_config] is evaluated. *)
Lemma get_service_config_default_config w :
  nonempty (default_config self) = true ->
  get_service_config self w = (Raise (NameError "default_config"), w).
Proof.
  intros Hne. unfold get_service_config, merge_layers, bind, gets. simpl.
  by rewrite Hne.
Qed.
End building.

(** The default configuration that the class ships, one image, is not empty. *)
Example get_service_config_shipped_default :
  get_service_config alice_with_defaults fresh = (Raise (NameError "default_config"), fresh).
Proof. by apply get_service_config_default_config. Qed.

(** ** Labels *)

Section labels.
Variable self : spawner.

Lemma format_mounts_labels config w config' w' :
  format_mounts self config w = (Ret config', w') ->
  assoc_get "labels" config' = assoc_get "labels" config.
Proof.
  unfold format_mounts, bind, gets, ret, raise.
  repeat case_match; intros; simplify_eq; try done; by rewrite assoc_get_set_ne.
Qed.

Lemma merge_layers_profile_name w merged w1 :
  merge_layers self w = (Ret merged, w1) ->
  merged.2 = default (Leaf (PStr "")) (assoc_get "name" (user_options self)).
Proof.
  unfold merge_layers, bind at 1, gets. cbv zeta. unfold bind at 1.
  match goal with |- context [(if nonempty (default_config self) then ?a else ?b) w] =>
    destruct ((if nonempty (default_config self) then a else b) w) as [[config| |] w0] end;
    [|done..].
  destruct (user_options self) as [|item items] eqn:Hopts; cbn [nonempty].
  - by intros [= <- _].
  - unfold bind. destruct (lift _ w0) as [[config'| |] w2]; [|done..].
    by intros [= <- _].
Qed.

Lemma add_labels_spec profile_name config w config' w' :
  add_labels self profile_name config w = (Ret config', w') ->
  exists labels,
    assoc_get "labels" config' = Some (Node labels)
    /\ assoc_get "org.jupyterhub.user" labels = Some (Leaf (PStr (user_name self)))
    /\ assoc_get "org.jupyterhub.server" labels = Some (Leaf (PStr (name self)))
    /\ assoc_get "org.jupyterhub.profile" labels = Some profile_name
    /\ (forall old k t,
          assoc_get "labels" config = Some (Node old) ->
          assoc_get k old = Some t -> k ∉ computed_labels ->
          assoc_get k labels = Some t).
Proof.
  unfold add_labels. destruct (assoc_get "labels" config) as [[v|old]|] eqn:Hold.
  - done.
  - intros [= <- _]. eexists. split; [apply assoc_get_set_eq|].
    unfold dict_update. cbn [fold_left].
    split_and!.
    + rewrite 2!assoc_get_set_ne by done. apply assoc_get_set_eq.
    + rewrite assoc_get_set_ne by done. apply assoc_get_set_eq.
    + apply assoc_get_set_eq.
    + intros old' k t [= <-] Hk Hnot. unfold computed_labels in Hnot.
      rewrite !not_elem_of_cons in Hnot. destruct Hnot as (? & ? & ? & _).
      by rewrite 3!assoc_get_set_ne.
  - intros [= <- _]. eexists. split; [apply assoc_get_set_eq|].
    split_and!; [done..|]. intros old' k t [=].
Qed.

(** C9: in every configuration that [get_service_config] returns, "labels"
    is a mapping that holds the user's name, the server's name and the
    profile's name under the three computed keys, and every other label of
    the merged configuration with the value it had there; a label of the
    merged configuration under a computed key is overwritten. *)
Theorem labels_invariant (w : world) (config : dict) (w' : world) :
  get_service_config self w = (Ret config, w') ->
  exists merged w1 labels,
    merge_layers self w = (Ret merged, w1)
    /\ assoc_get "labels" config = Some (Node labels)
    /\ assoc_get "org.jupyterhub.user" labels = Some (Leaf (PStr (user_name self)))
    /\ assoc_get "org.jupyterhub.server" labels = Some (Leaf (PStr (name self)))
    /\ assoc_get "org.jupyterhub.profile" labels
       = Some (default (Leaf (PStr "")) (assoc_get "name" (user_options self)))
    /\ (forall old k t,
          assoc_get "labels" merged.1 = Some (Node old) ->
          assoc_get k old = Some t -> k ∉ computed_labels ->
          assoc_get k labels = Some t).
Proof.
  unfold get_service_config, bind at 1.
  destruct (merge_layers self w) as [[merged| |] w1] eqn:Hmerge; [|done..].
  unfold bind.
  destruct (add_labels self merged.2 merged.1 w1) as [[labelled| |] w2] eqn:Hlab; [|done..].
  intros Hfmt. apply format_mounts_labels in Hfmt.
  destruct (add_labels_spec _ _ _ _ _ Hlab) as (labels & Hl & Hu & Hs & Hp & Hkeep).
  exists merged, w1, labels. rewrite Hfmt.
  rewrite (merge_layers_profile_name _ _ _ Hmerge) in Hp. done.
Qed.
End labels.

(** The build for alice: the label of the profile is kept, the user label
    that collides is overwritten. *)
Lemma labels_invariant_witness :
  exists config w' labels,
    get_service_config alice fresh = (Ret config, w')
    /\ assoc_get "labels" config = Some (Node labels)
    /\ assoc_get "org.jupyterhub.user" labels = Some (Leaf (PStr "alice"))
    /\ assoc_get "org.jupyterhub.server" labels = Some (Leaf (PStr ""))
    /\ assoc_get "org.jupyterhub.profile" labels = Some (Leaf (PStr "home"))
    /\ assoc_get "team" labels = Some (Leaf (PStr "ml")).
Proof.
  destruct (get_service_config alice fresh) as [r w'] eqn:Hrun.
  assert (exists config, r = Ret config) as [config ->]
    by (vm_compute in Hrun; injection Hrun as <- _; by eexists).
  destruct (labels_invariant alice fresh config w' Hrun)
    as (merged & w1 & labels & Hmerge & Hl & Hu & Hs & Hp & Hkeep).
  exists config, w', labels. split_and!; [done|exact Hl|exact Hu|exact Hs|exact Hp|].
  vm_compute in Hmerge. injection Hmerge as <- _.
  eapply Hkeep; [reflexivity|reflexivity|].
  unfold computed_labels. rewrite !not_elem_of_cons. split_and!; [done..|].
  apply not_elem_of_nil.
Defined.

(** ** Mount descriptors *)

(** C8, on the code: the profile's mount descriptor is a dictionary of the
    store that the profile list holds for all users.  Building alice's
    configuration writes her paths into it; the configuration built next, for
    bob, mounts alice's home. *)
Theorem get_service_config_rewrites_profile_mount :
  let first := get_service_config alice fresh in
  let second := get_service_config bob first.2 in
  store fresh = [ [ ("target", PStr "/home/{username}"); ("source", PStr "vol-{username}") ] ]
  /\ (exists config, first.1 = Ret config
                     /\ assoc_get "mounts" config = Some (Leaf (PList [PRef 0])))
  /\ store first.2 = [ [ ("target", PStr "/home/alice"); ("source", PStr "vol-alice") ] ]
  /\ (exists config, second.1 = Ret config
                     /\ assoc_get "mounts" config = Some (Leaf (PList [PRef 0])))
  /\ store second.2 = [ [ ("target", PStr "/home/alice"); ("source", PStr "vol-alice") ] ].
Proof.
  cbv zeta. split_and!; [reflexivity| |reflexivity| |reflexivity].
  - eexists. split; [vm_compute; reflexivity|reflexivity].
  - eexists. split; [vm_compute; reflexivity|reflexivity].
Qed.

(** ** Round trip of flatten and unflatten *)

Section assoc_more.
Context {K V : Type} `{EqDecision K}.
Implicit Types (k : K) (v : V) (m : list (K * V)).

Lemma assoc_set_id k v m : assoc_get k m = Some v -> assoc_set k v m = m.
Proof.
  induction m as [|[k' v'] m IH]; simpl; [done|].
  destruct (decide (k = k')) as [->|Hne]; [by intros [= ->]|].
  intros Hget. by rewrite IH.
Qed.

Lemma assoc_set_set k v v' m : assoc_set k v' (assoc_set k v m) = assoc_set k v' m.
Proof.
  induction m as [|[k0 v0] m IH]; simpl.
  - by rewrite decide_True.
  - destruct (decide (k = k0)) as [->|Hne]; simpl.
    + by rewrite decide_True.
    + by rewrite decide_False, IH.
Qed.

Lemma assoc_set_new k v m : assoc_get k m = None -> assoc_set k v m = m ++ [(k, v)].
Proof.
  induction m as [|[k' v'] m IH]; simpl; [done|].
  destruct (decide (k = k')) as [->|Hne]; [done|].
  intros Hget. by rewrite IH.
Qed.

Lemma assoc_get_app_None k m m' :
  assoc_get k (m ++ m') = match assoc_get k m with Some v => Some v | None => assoc_get k m' end.
Proof.
  induction m as [|[k' v'] m IH]; simpl; [done|].
  by destruct (decide (k = k')).
Qed.
End assoc_more.

Lemma flatten_at_cons t : forall k p, flatten_at (k :: p) t = prepend k <$> flatten_at p t.
Proof.
  induction t as [v|items IH] using tree_ind'; intros k p; [done|].
  simpl. induction IH as [|[key t] items Ht _ IHitems]; [done|].
  simpl. rewrite fmap_app. f_equal; [|apply IHitems].
  apply (Ht k (p ++ [key])).
Qed.

Lemma flatten_at_nonempty t : forall p, no_empty t = true -> flatten_at p t <> [].
Proof.
  induction t as [v|items IH] using tree_ind'; intros p; [done|].
  simpl. destruct IH as [|[key t] items Ht _]; [done|].
  simpl. rewrite !andb_true_iff. intros (Ht' & _) Happ.
  apply app_eq_nil in Happ as [Happ _]. by eapply Ht.
Qed.

Lemma unflatten_into_app f1 : forall d f2,
  unflatten_into d (f1 ++ f2)
  = res_bind (unflatten_into d f1) (fun d1 => unflatten_into d1 f2).
Proof.
  induction f1 as [|[k v] f1 IH]; intros d f2; [done|].
  simpl. destruct (nested_set_dict d k v); [apply IH|done].
Qed.

Lemma nested_set_dict_deeper d k q0 q v :
  nested_set_dict d (k :: q0 :: q) v
  = match assoc_get k d with
    | None =>
        res_bind (nested_set_dict [] (q0 :: q) v) (fun sub => Ok (assoc_set k (Node sub) d))
    | Some (Node sub) =>
        res_bind (nested_set_dict sub (q0 :: q) v) (fun sub' => Ok (assoc_set k (Node sub') d))
    | Some (Leaf u) => Err (set_through_leaf u (q0 :: q))
    end.
Proof. done. Qed.

(** Items under a key that holds a mapping go into that mapping. *)
Lemma unflatten_into_under k f : forall d sub sub',
  (forall q, q ∈ f.*1 -> q <> []) ->
  assoc_get k d = Some (Node sub) ->
  unflatten_into sub f = Ok sub' ->
  unflatten_into d (prepend k <$> f) = Ok (assoc_set k (Node sub') d).
Proof.
  induction f as [|[q v] f IH]; intros d sub sub' Hne Hget Hrun.
  - injection Hrun as <-. simpl. by rewrite assoc_set_id.
  - rewrite fmap_cons in *. destruct q as [|q0 q]; [by destruct (Hne []); [left|]|].
    cbn [unflatten_into] in Hrun. unfold prepend at 1. cbn [fst snd unflatten_into].
    rewrite nested_set_dict_deeper, Hget.
    destruct (nested_set_dict sub (q0 :: q) v) as [sub1|] eqn:Hset; [|done].
    cbn [res_bind] in *.
    rewrite (IH (assoc_set k (Node sub1) d) sub1 sub').
    + by rewrite assoc_set_set.
    + intros q' Hq'. apply Hne. by right.
    + apply assoc_get_set_eq.
    + done.
Qed.

(** Items under a new key make a new mapping at the end. *)
Lemma unflatten_into_under_new k f d sub' :
  (forall q, q ∈ f.*1 -> q <> []) -> f <> [] ->
  assoc_get k d = None ->
  unflatten_into [] f = Ok sub' ->
  unflatten_into d (prepend k <$> f) = Ok (d ++ [(k, Node sub')]).
Proof.
  intros Hne Hf Hget Hrun. destruct f as [|[q v] f]; [done|].
  rewrite fmap_cons in *. destruct q as [|q0 q]; [by destruct (Hne []); [left|]|].
  cbn [unflatten_into] in Hrun. unfold prepend at 1. cbn [fst snd unflatten_into].
  rewrite nested_set_dict_deeper, Hget.
  destruct (nested_set_dict [] (q0 :: q) v) as [sub1|] eqn:Hset; [|done].
  cbn [res_bind] in *.
  rewrite (unflatten_into_under k f (assoc_set k (Node sub1) d) sub1 sub').
  - by rewrite assoc_set_set, assoc_set_new.
  - intros q' Hq'. apply Hne. by right.
  - apply assoc_get_set_eq.
  - done.
Qed.

Lemma unflatten_flatten_items items :
  Forall (fun kt => wf_tree kt.2 = true -> no_empty kt.2 = true ->
            match kt.2 with
            | Node sub => unflatten_into [] (flatten_items [] sub) = Ok sub
            | Leaf _ => True
            end) items ->
  forall d,
    NoDup items.*1 -> (forall k, k ∈ items.*1 -> assoc_get k d = None) ->
    forallb (fun '(_, t') => wf_tree t') items = true ->
    forallb (fun '(_, t') => no_empty t') items = true ->
    unflatten_into d (flatten_items [] items) = Ok (d ++ items).
Proof.
  induction 1 as [|[key t] items Ht _ IH]; intros d Hnd Hfresh Hwf Hne.
  - simpl. by rewrite app_nil_r.
  - csimpl in *. apply NoDup_cons in Hnd as [Hkey Hnd].
    apply andb_true_iff in Hwf as [Hwft Hwf]. apply andb_true_iff in Hne as [Hnet Hne].
    unfold flatten_items. cbn [flat_map]. fold (flatten_items [] items).
    rewrite unflatten_into_app.
    assert (assoc_get key d = None) as Hd by (apply Hfresh; by left).
    assert (forall t', unflatten_into (d ++ [(key, t')]) (flatten_items [] items)
                       = Ok (d ++ (key, t') :: items)) as Hrest.
    { intros t'. rewrite IH; [by rewrite <- app_assoc|done| |done..].
      intros k Hk. rewrite assoc_get_app_None, Hfresh by (by right). simpl.
      rewrite decide_False; [done|]. by intros ->. }
    destruct t as [v|sub].
    + simpl. unfold assoc_mem. rewrite Hd. simpl. rewrite assoc_set_new by done.
      apply Hrest.
    + change (flatten_at [key] (Node sub)) with (flatten_at ([key] ++ []) (Node sub)).
      simpl app. rewrite flatten_at_cons.
      change (flatten_at [] (Node sub)) with (flatten_items [] sub).
      rewrite (unflatten_into_under_new key _ d sub).
      * simpl. apply Hrest.
      * intros q. apply flatten_items_nonempty.
      * apply (flatten_at_nonempty (Node sub) []). done.
      * done.
      * simpl in Ht. by apply Ht.
Qed.

Lemma unflatten_flatten_tree t :
  wf_tree t = true -> no_empty t = true ->
  match t with
  | Node sub => unflatten_into [] (flatten_items [] sub) = Ok sub
  | Leaf _ => True
  end.
Proof.
  induction t as [v|items IH] using tree_ind'; [done|].
  simpl. rewrite !andb_true_iff, bool_decide_eq_true. intros [Hnd Hwf] [_ Hne].
  by rewrite (unflatten_flatten_items items IH []).
Qed.

(** A mapping with distinct keys and no empty mapping inside comes back from
    [flatten] and [unflatten] as it was, key order included. *)
Lemma unflatten_flatten d :
  wf_tree (Node d) = true -> no_empty_below d = true ->
  unflatten (flatten_items [] d) = Ok d.
Proof.
  simpl. rewrite andb_true_iff, bool_decide_eq_true. intros [Hnd Hwf] Hne.
  unfold unflatten. rewrite (unflatten_flatten_items d); [done| |done..].
  apply Forall_forall. intros [k t] _. apply unflatten_flatten_tree.
Qed.

Lemma update_items_kept f : forall f',
  (forall k v, (k, v) ∈ f -> assoc_get k f' = Some v /\ is_list v = false) ->
  update_items f' f = Ok f'.
Proof.
  induction f as [|[k v] f IH]; intros f' Hall; [done|].
  destruct (Hall k v) as [Hget Hv]; [by left|].
  simpl. unfold update_item. rewrite Hv. simpl. rewrite assoc_set_id by done.
  apply IH. intros k' v' Hin. apply Hall. by right.
Qed.

Lemma update_items_fresh f : forall acc,
  NoDup f.*1 -> (forall k, k ∈ f.*1 -> assoc_get k acc = None) ->
  update_items acc f = Ok (acc ++ f).
Proof.
  induction f as [|[k v] f IH]; intros acc Hnd Hfresh.
  - simpl. by rewrite app_nil_r.
  - csimpl in *. apply NoDup_cons in Hnd as [Hk Hnd].
    unfold update_item, assoc_mem. rewrite Hfresh by (by left).
    rewrite andb_false_r. simpl. rewrite assoc_set_new by (apply Hfresh; by left).
    rewrite IH; [by rewrite <- app_assoc|done|].
    intros k' Hk'. rewrite assoc_get_app_None, Hfresh by (by right). simpl.
    rewrite decide_False; [done|]. by intros ->.
Qed.

(** ** More of _update_config *)

(** X1: the empty mapping is a unit of the merge on both sides: for a
    mapping with distinct keys and no empty mapping inside, merging an empty
    override into it, or merging it into an empty base, returns it as it is. *)
Theorem update_config_empty d :
  wf_tree (Node d) = true -> no_empty_below d = true ->
  _update_config (Node d) (Node []) = Ok d
  /\ _update_config (Node []) (Node d) = Ok d.
Proof.
  intros Hwf Hne. unfold _update_config. simpl. split.
  - by apply unflatten_flatten.
  - rewrite (update_items_fresh _ []); [by apply unflatten_flatten| |done].
    by apply flatten_items_NoDup.
Qed.

(** An override with a list, a scalar and a nested mapping. *)
Lemma update_config_empty_witness :
  _update_config (Node layer_override) (Node []) = Ok layer_override
  /\ _update_config (Node []) (Node layer_override) = Ok layer_override.
Proof. apply (update_config_empty layer_override); reflexivity. Defined.

(** X2: merging a mapping into itself returns it unchanged when none of its
    values is a list (distinct keys, no empty mapping inside). *)
Theorem update_config_idempotent d :
  wf_tree (Node d) = true -> no_empty_below d = true -> scalar_only d = true ->
  _update_config (Node d) (Node d) = Ok d.
Proof.
  intros Hwf Hne Hscalar. unfold _update_config. simpl.
  rewrite update_items_kept; [by apply unflatten_flatten|].
  intros k v Hin. split.
  - apply elem_assoc_get; [by apply flatten_items_NoDup|done].
  - unfold scalar_only in Hscalar. rewrite forallb_forall in Hscalar.
    apply list_elem_of_In, Hscalar in Hin. by apply negb_true_iff in Hin.
Qed.

Lemma update_config_idempotent_witness :
  _update_config (Node mode_base) (Node mode_base) = Ok mode_base.
Proof. apply (update_config_idempotent mode_base); reflexivity. Defined.

Lemma unflatten_into_shape f : forall d K d',
  shape_inv d K -> unflatten_into d f = Ok d' -> shape_inv d' (K ++ f.*1).
Proof.
  induction f as [|[k0 v0] f IH]; intros d K d' Hinv Hrun.
  - injection Hrun as <-. simpl. by rewrite app_nil_r.
  - simpl in Hrun. destruct (nested_set_dict d k0 v0) as [d1|] eqn:Hset; [|done].
    simpl in Hrun. csimpl. rewrite cons_middle, app_assoc. eapply IH; [|done].
    intros p t Hp Hl.
    destruct (nested_set_dict_shape _ _ _ _ _ _ Hset Hp Hl)
      as [[Hpre Hleaf]|(t0 & Hl0 & Hleaf)].
    + exists k0. split_and!; [|done..]. apply elem_of_app. right. by left.
    + destruct (Hinv p t0 Hp Hl0) as (k & Hk & Hpre & Hleaf0).
      exists k. split_and!; [apply elem_of_app; by left|done|].
      intros u Hu. eapply Hleaf0, Hleaf, Hu.
Qed.

(** X3: whatever the two mappings, a merge that returns has no empty
    mapping inside its result: the empty mappings of the base and of the
    override are dropped. *)
Theorem update_config_drops_empty base override r :
  _update_config base override = Ok r ->
  forall p, p <> [] -> lookup_path p (Node r) <> Some (Node []).
Proof.
  unfold _update_config. intros Hrun p Hp Hl.
  destruct (flatten base) as [fb|]; [|done]. destruct (flatten override) as [fo|]; [|done].
  simpl in Hrun. destruct (update_items fb fo) as [config'|]; [|done]. simpl in Hrun.
  assert (shape_inv r ([] ++ config'.*1)) as Hinv.
  { eapply unflatten_into_shape; [|exact Hrun].
    intros q t Hq Hlq. by rewrite lookup_path_empty in Hlq. }
  destruct (Hinv p (Node []) Hp Hl) as (k & Hk & [rest ->] & _).
  simpl in Hk. apply list_elem_of_fmap in Hk as ([k' v] & Heq & Hin). simpl in Heq. subst k'.
  pose proof (unflatten_into_leaves _ _ _ Hrun _ _ Hin) as Hleaf.
  rewrite lookup_path_app, Hl in Hleaf. by destruct rest.
Qed.

(** A base whose "labels" is an empty mapping. *)
Lemma update_config_drops_empty_witness :
  _update_config (Node hollow_base) (Node [])
  = Ok [ ("image", Leaf (PStr "jupyterhub/singleuser:latest")) ]
  /\ lookup_path ["labels"] (Node [ ("image", Leaf (PStr "jupyterhub/singleuser:latest")) ])
     <> Some (Node []).
Proof.
  split; [reflexivity|].
  apply (update_config_drops_empty (Node hollow_base) (Node [])); [reflexivity|done].
Defined.

(** ** More of the lifecycle *)

Lemma count_events_app kind tr tr' :
  count_events kind (tr ++ tr') = count_events kind tr + count_events kind tr'.
Proof. unfold count_events. by rewrite List.filter_app, length_app. Qed.

Section lifecycle_more.
Variable orch : orchestrator.
Variable self : spawner.

(** What [get_service] adds to the trace, and what it leaves alone. *)
Lemma get_service_trace w :
  exists logs,
    trace (get_service orch self w).2
    = trace w ++ ELog DEBUG "Getting Docker service {}" [service_name self]
              :: ECall (ServicesGet (service_name self)) :: logs
    /\ forallb is_log logs = true
    /\ store (get_service orch self w).2 = store w
    /\ api_token (get_service orch self w).2 = api_token w.
Proof.
  unfold get_service, bind, try_except, log, modify, remote. simpl.
  destruct (services_get orch _ _) as [svc|e]; simpl.
  - exists []. by rewrite <- !app_assoc.
  - destruct e as [st|st| | | | | | |]; simpl;
      try (exists []; by rewrite <- !app_assoc).
    + eexists [_]. by rewrite <- !app_assoc.
    + destruct (is_server_error st); simpl.
      * eexists [_]. by rewrite <- !app_assoc.
      * exists []. by rewrite <- !app_assoc.
Qed.

(** X4: [get_service] makes one remote call whatever the answer, and an
    error that is neither NotFound nor an APIError with a status from 500 to
    599 (an APIError without status, a connection error, ...) leaves it as it
    came, with the identifier and the token as they were. *)
Theorem get_service_unhandled w :
  count_events is_call (trace (get_service orch self w).2)
  = S (count_events is_call (trace w))
  /\ (forall e, lookup_reply orch self w = Err e -> lookup_handled e = false ->
        (get_service orch self w).1 = Raise e
        /\ service_id (get_service orch self w).2 = service_id w
        /\ api_token (get_service orch self w).2 = api_token w).
Proof.
  split.
  - destruct (get_service_trace w) as (logs & -> & Hlogs & _).
    rewrite count_events_app. unfold count_events at 2. simpl.
    assert (List.filter is_call logs = []) as ->; [|simpl; lia].
    clear -Hlogs. induction logs as [|[] logs IH]; simpl in *; try done. by apply IH.
  - unfold lookup_reply, get_service, bind, try_except, log, modify, remote. simpl.
    intros e -> He. destruct e; simpl in *; try done. by rewrite He.
Qed.
End lifecycle_more.

(** The daemon cannot be reached. *)
Lemma get_service_unhandled_witness :
  (get_service (answering (Err (OtherError "ConnectionError")) (Ok true) (Ok []))
     alice started).1 = Raise (OtherError "ConnectionError")
  /\ service_id (get_service (answering (Err (OtherError "ConnectionError")) (Ok true) (Ok []))
                   alice started).2 = "k3x9q0v7m2"
  /\ api_token (get_service (answering (Err (OtherError "ConnectionError")) (Ok true) (Ok []))
                  alice started).2 = "secret".
Proof.
  destruct (get_service_unhandled
              (answering (Err (OtherError "ConnectionError")) (Ok true) (Ok []))
              alice started) as [_ H].
  apply (H (OtherError "ConnectionError")); reflexivity.
Defined.

Lemma count_events_logs kind logs :
  (forall lvl msg args, kind (ELog lvl msg args) = false) ->
  forallb is_log logs = true -> count_events kind logs = 0.
Proof.
  intros Hkind. unfold count_events.
  induction logs as [|[c|n|lvl msg args] logs IH]; simpl; try done.
  rewrite Hkind. apply IH.
Qed.

Lemma loop_free_ret {A} (a : A) : loop_free (ret a).
Proof. by intros w. Qed.

Lemma loop_free_raise {A} e : loop_free (@raise A e).
Proof. by intros w. Qed.

Lemma loop_free_lift {A} (r : res A) : loop_free (lift r).
Proof. destruct r; [apply loop_free_ret|apply loop_free_raise]. Qed.

Lemma loop_free_gets {A} (f : world -> A) : loop_free (gets f).
Proof. by intros w. Qed.

Lemma loop_free_modify f : loop_free (modify f).
Proof. by intros w. Qed.

Lemma loop_free_bind {A B} (m : M A) (k : A -> M B) :
  loop_free m -> (forall a, loop_free (k a)) -> loop_free (bind m k).
Proof.
  intros Hm Hk w. unfold bind. specialize (Hm w).
  destruct (m w) as [[a| |] w1]; [apply Hk|done..].
Qed.

Lemma loop_free_mapM {A B} (f : A -> M B) l :
  (forall a, loop_free (f a)) -> loop_free (mapM f l).
Proof.
  intros Hf. induction l as [|a l IH]; [apply loop_free_ret|].
  cbn [mapM]. apply loop_free_bind; [apply Hf|]. intros y.
  apply loop_free_bind; [apply IH|]. intros ys. apply loop_free_ret.
Qed.

Create HintDb loop_free.
#[local] Hint Resolve loop_free_ret loop_free_raise loop_free_lift loop_free_gets
  loop_free_modify loop_free_bind loop_free_mapM : loop_free.

Lemma loop_free_get_service_config self : loop_free (get_service_config self).
Proof.
  assert (forall v, loop_free (format_value self v)) as Hvalue.
  { intros v. destruct v; simpl; eauto with loop_free. }
  assert (forall m, loop_free (_format_mount self m)) as Hmount.
  { intros m. destruct m; simpl; unfold getitem, setitem; eauto 20 with loop_free.
    repeat (apply loop_free_bind; [|intros ?]); eauto with loop_free.
    all: case_match; eauto with loop_free. }
  unfold get_service_config.
  apply loop_free_bind; [|intros merged; apply loop_free_bind; [|intros config]].
  - unfold merge_layers. apply loop_free_bind; [apply loop_free_gets|]. intros token.
    cbv zeta. apply loop_free_bind.
    + case_match; eauto with loop_free.
    + intros config. case_match; eauto with loop_free.
  - unfold add_labels. repeat case_match; eauto with loop_free.
  - unfold format_mounts. repeat case_match; eauto 10 with loop_free.
    apply loop_free_bind; [apply loop_free_gets|].
    intros r. case_match; eauto 10 with loop_free.
Qed.

Section starting.
Variable orch : orchestrator.
Variable self : spawner.

(** [start] after each outcome of the lookup. *)
Lemma start_cases (fuel : nat) (w : world) :
  match get_service orch self w with
  | (Ret None, w1) =>
      exists e w2, start orch self fuel w = (Raise e, w2) /\ trace w2 = trace w1
  | (Ret (Some service), w1) =>
      exists r w2,
        start orch self fuel w = (r, w2)
        /\ trace w2 = trace w1 ++ [ELog INFO "Found existing Docker service {} with id {}"
                                     [service_name self; first7 (service_id w1)]]
  | (Raise e, w1) => start orch self fuel w = (Raise e, w1)
  | (OutOfFuel, w1) => start orch self fuel w = (OutOfFuel, w1)
  end.
Proof.
  destruct (get_service orch self w) as [[[service|]| |] w1] eqn:Hget;
    unfold start; unfold bind at 1; unfold bind at 1; rewrite Hget; [| |done..].
  - unfold bind, log, modify, gets. cbn [fst snd].
    set (w2 := add_event _ w1).
    destruct (svc_env service) as [envs|].
    + destruct (reuse_token_spec envs w2) as (w' & -> & _ & _ & Htr & _).
      do 2 eexists. split; [reflexivity|]. by rewrite Htr.
    + do 2 eexists. split; reflexivity.
  - unfold bind at 1.
    pose proof (get_service_config_store_only self w1) as (Htr & _).
    pose proof (loop_free_get_service_config self w1) as Hfuel.
    destruct (get_service_config self w1) as [[config| |] w2]; cbn [fst snd] in *.
    + unfold bind at 1. simpl. do 2 eexists. split; [reflexivity|exact Htr].
    + do 2 eexists. split; [reflexivity|exact Htr].
    + done.
Qed.

(** X5: [start] never asks for a service to be created.  Whatever the
    orchestrator answers, the trace of [start] holds no create call that was
    not there before; and when the lookup reports no service, [start] raises:
    the build fails, or the call [_parse_config(config)] lacks an argument. *)
Theorem start_never_creates (fuel : nat) (w : world) :
  count_events is_create (trace (start orch self fuel w).2)
  = count_events is_create (trace w)
  /\ ((get_service orch self w).1 = Ret None ->
      exists e, (start orch self fuel w).1 = Raise e).
Proof.
  destruct (get_service_trace orch self w) as (logs & Htr & Hlogs & _).
  assert (count_events is_create (trace (get_service orch self w).2)
          = count_events is_create (trace w)) as Hcount.
  { rewrite Htr.
    change (?a :: ?b :: logs) with ([a; b] ++ logs).
    rewrite !count_events_app, (count_events_logs _ logs); [|done|done].
    unfold count_events. simpl. lia. }
  clear Htr Hlogs. pose proof (start_cases fuel w) as Hcases.
  destruct (get_service orch self w) as [[[service|]| |] w1]; cbn [fst snd] in *.
  - destruct Hcases as (r & w2 & -> & Htr). cbn [fst snd]. rewrite Htr.
    rewrite count_events_app, Hcount. unfold count_events at 2. simpl. split; [lia|done].
  - destruct Hcases as (e & w2 & -> & Htr). cbn [fst snd]. rewrite Htr.
    split; [done|]. intros _. by exists e.
  - rewrite Hcases. done.
  - rewrite Hcases. done.
Qed.
End starting.

(** No service yet, and nothing for the build to trip over. *)
Lemma start_never_creates_witness :
  exists e,
    (start (answering (Err (NotFound (Some 404%Z))) (Ok true) (Ok [task_in "running"]))
       alice 30 fresh).1 = Raise e.
Proof.
  apply (start_never_creates
           (answering (Err (NotFound (Some 404%Z))) (Ok true) (Ok [task_in "running"]))
           alice 30 fresh).
  reflexivity.
Defined.

(** ** More of stop, the persisted state and the body of poll *)

Section stopping.
Variable orch : orchestrator.
Variable self : spawner.

(** [stop] when the removal returns. *)
Lemma stop_returns w b :
  removal_reply orch self w = Ok b ->
  exists logs w',
    stop orch self w = (Ret tt, w')
    /\ trace w'
       = trace w ++ ELog INFO "Stopping and removing Docker service {} with id {}"
                      [service_name self; first7 (service_id w)]
                 :: ECall (RemoveService (service_name self)) :: logs
    /\ forallb is_log logs = true
    /\ service_id w' = "" /\ api_token w' = "" /\ store w' = store w.
Proof.
  unfold removal_reply, stop, bind, try_except, log, modify, gets, remote, clear_state.
  simpl. intros ->. destruct b; simpl.
  - do 2 eexists. split; [reflexivity|]. simpl. rewrite <- !app_assoc. simpl.
    split; [reflexivity|]. done.
  - exists []. eexists. split; [reflexivity|]. simpl. by rewrite <- !app_assoc.
Qed.

(** X6: when the removal returns, [stop] returns, having made that one
    remote call; the identifier and the token are cleared, and [get_state]
    has nothing left to persist. *)
Theorem stop_after_removal w b :
  removal_reply orch self w = Ok b ->
  (stop orch self w).1 = Ret tt
  /\ service_id (stop orch self w).2 = ""
  /\ api_token (stop orch self w).2 = ""
  /\ get_state (stop orch self w).2 = []
  /\ count_events is_call (trace (stop orch self w).2) = S (count_events is_call (trace w))
  /\ count_events is_removal (trace (stop orch self w).2)
     = S (count_events is_removal (trace w)).
Proof.
  intros Hreply.
  destruct (stop_returns w b Hreply) as (logs & w' & -> & Htr & Hlogs & Hid & Htok & _).
  cbn [fst snd]. unfold get_state. rewrite Hid, Htok, Htr.
  change (?a :: ?c :: logs) with ([a; c] ++ logs).
  rewrite !count_events_app, !(count_events_logs _ logs) by done.
  unfold count_events. simpl. split_and!; try done; lia.
Qed.

(** X7: an error of the removal that is not a docker API error (a broken
    connection, say) is not handled: [stop] raises it, after that one remote
    call, and the identifier and the token stay as they were. *)
Theorem stop_unhandled w e :
  removal_reply orch self w = Err e -> removal_error e = false ->
  (stop orch self w).1 = Raise e
  /\ service_id (stop orch self w).2 = service_id w
  /\ api_token (stop orch self w).2 = api_token w
  /\ count_events is_call (trace (stop orch self w).2) = S (count_events is_call (trace w)).
Proof.
  unfold removal_reply, stop, bind, try_except, log, modify, gets, remote, clear_state.
  simpl. intros -> He. destruct e; simpl in *; try done.
  all: rewrite <- !app_assoc, count_events_app; unfold count_events; simpl;
    split_and!; try done; lia.
Qed.

(** The [for] loop of [poll] when every removal returns. *)
Lemma poll_scan_spec tasks :
  (forall tr name, exists b, remove_service orch tr name = Ok b) ->
  forall running_task w,
  exists found w',
    poll_scan orch self tasks running_task w = (Ret found, w')
    /\ bool_decide (is_Some found)
       = bool_decide (is_Some running_task) || has_state "running" tasks
    /\ count_events is_removal (trace w')
       = count_events is_removal (trace w) + count_state "rejected" tasks
    /\ (has_state "rejected" tasks = true -> service_id w' = "").
Proof.
  intros Hremove. induction tasks as [|t tasks IH]; intros running_task w.
  - exists running_task, w. split_and!; [done|by rewrite orb_false_r|unfold count_state; simpl; lia|done].
  - cbn [poll_scan]. rewrite !has_state_cons. unfold count_state. cbn [List.filter].
    fold (count_state "rejected" tasks).
    unfold bind at 1.
    assert (exists rt1 w1,
      (if String.eqb (task_state t) "running"
       then let! sid := gets service_id
            in log DEBUG "Task {} of service with id {} status: {}"
                 [first7 (task_id t); first7 sid; task_state t];! ret (Some t)
       else ret running_task) w = (Ret rt1, w1)
      /\ bool_decide (is_Some rt1)
         = bool_decide (is_Some running_task) || String.eqb (task_state t) "running"
      /\ count_events is_removal (trace w1) = count_events is_removal (trace w)
      /\ service_id w1 = service_id w) as (rt1 & w1 & -> & Hrt1 & Hc1 & Hid1).
    { destruct (String.eqb (task_state t) "running").
      - exists (Some t). eexists. split; [reflexivity|]. simpl.
        rewrite count_events_app. unfold count_events at 2. simpl.
        rewrite orb_true_r. split_and!; [done|lia|done].
      - exists running_task, w. by rewrite orb_false_r. }
    unfold bind at 1.
    destruct (String.eqb (task_state t) "rejected") eqn:Hrej.
    + unfold bind at 1, gets, log, modify. cbn [fst snd]. unfold bind at 1. cbn [fst snd].
      set (w2 := add_event _ w1).
      destruct (Hremove (trace w2 ++ [ELog INFO "Stopping and removing Docker service {} with id {}"
                                        [service_name self; first7 (service_id w2)]])
                        (service_name self)) as [b Hb].
      destruct (stop_returns w2 b Hb) as (logs & w3 & -> & Htr3 & Hlogs & Hid3 & _).
      destruct (IH rt1 w3) as (found & w' & Hrun & Hfound & Hcount & Hid).
      rewrite Hrun. exists found, w'. split_and!; [done| | |].
      * rewrite Hfound, Hrt1. by rewrite orb_assoc.
      * rewrite Hcount, Htr3.
        change (?a :: ?c :: logs) with ([a; c] ++ logs).
        rewrite !count_events_app, (count_events_logs _ logs) by done.
        unfold w2. simpl trace. rewrite count_events_app, Hc1.
        unfold count_events, count_state. simpl. lia.
      * intros _. destruct (has_state "rejected" tasks) eqn:Hmore; [by apply Hid|].
        clear Hid Hcount. revert Hmore.
        assert (forall ts rt w4, has_state "rejected" ts = false ->
                  service_id (poll_scan orch self ts rt w4).2 = service_id w4) as Hkeep.
        { clear. induction ts as [|t' ts IHts]; intros rt w4; [done|].
          rewrite has_state_cons. intros Hno. apply orb_false_iff in Hno as [Hno1 Hno2].
          cbn [poll_scan]. rewrite Hno1. unfold bind at 1.
          destruct (String.eqb (task_state t') "running").
          - unfold bind at 1 2, gets, log, modify, ret. cbn [fst snd].
            unfold bind at 1. cbn [fst snd]. by rewrite IHts.
          - unfold ret at 1. unfold bind at 1. unfold ret at 1. by rewrite IHts. }
        intros Hmore. specialize (Hkeep tasks rt1 w3 Hmore).
        rewrite Hrun in Hkeep. simpl in Hkeep. by rewrite Hkeep.
    + unfold ret at 1. cbn [fst snd].
      destruct (IH rt1 w1) as (found & w' & -> & Hfound & Hcount & Hid).
      exists found, w'. split_and!; [done| | |].
      * rewrite Hfound, Hrt1. by rewrite orb_assoc.
      * rewrite Hcount, Hc1. unfold count_state. simpl. lia.
      * simpl. done.
Qed.

(** X8: the body of [poll], from a task list on, when every removal
    returns: the verdict is None (healthy) exactly when some task is running,
    whether or not another is rejected, and 0 otherwise; [stop] runs once for
    each rejected task; and after a rejected task the identifier is cleared. *)
Theorem poll_tasks_verdict tasks w :
  (forall tr name, exists b, remove_service orch tr name = Ok b) ->
  (poll_tasks orch self tasks w).1
  = Ret (if has_state "running" tasks then PNone else PInt 0)
  /\ count_events is_removal (trace (poll_tasks orch self tasks w).2)
     = count_events is_removal (trace w) + count_state "rejected" tasks
  /\ (has_state "rejected" tasks = true -> service_id (poll_tasks orch self tasks w).2 = "").
Proof.
  intros Hremove.
  assert (exists found w',
    poll_tasks orch self tasks w
    = (Ret (match found : option task with Some _ => PNone | None => PInt 0 end), w')
    /\ bool_decide (is_Some found) = has_state "running" tasks
    /\ count_events is_removal (trace w')
       = count_events is_removal (trace w) + count_state "rejected" tasks
    /\ (has_state "rejected" tasks = true -> service_id w' = ""))
    as (found & w' & -> & Hfound & Hcount & Hid).
  { unfold poll_tasks. unfold bind at 1.
    assert (exists w0,
      (if nonempty tasks then ret tt
       else log WARN "Tasks for service {} not found" [service_name self]) w = (Ret tt, w0)
      /\ count_events is_removal (trace w0) = count_events is_removal (trace w))
      as (w0 & -> & Hc0).
    { destruct tasks; simpl.
      - eexists. split; [reflexivity|]. simpl. rewrite count_events_app.
        unfold count_events at 2. simpl. lia.
      - by exists w. }
    unfold bind.
    destruct (poll_scan_spec tasks Hremove None w0) as (found & w' & -> & Hfound & Hcount & Hid).
    exists found, w'. rewrite Hcount, Hc0. by destruct found. }
  cbn [fst snd]. split_and!; [|done..].
  by destruct found as [t|], (has_state "running" tasks).
Qed.
End stopping.

(** A removal that returns True. *)
Lemma stop_after_removal_witness :
  (stop (answering (Ok live_service) (Ok true) (Ok [])) alice started).1 = Ret tt
  /\ service_id (stop (answering (Ok live_service) (Ok true) (Ok [])) alice started).2 = ""
  /\ get_state (stop (answering (Ok live_service) (Ok true) (Ok [])) alice started).2 = [].
Proof.
  destruct (stop_after_removal (answering (Ok live_service) (Ok true) (Ok [])) alice
              started true eq_refl) as (H1 & H2 & _ & H4 & _).
  by split_and!.
Defined.

(** The daemon cannot be reached. *)
Lemma stop_unhandled_witness :
  (stop (answering (Ok live_service) (Err (OtherError "ConnectionError")) (Ok []))
     alice started).1 = Raise (OtherError "ConnectionError")
  /\ service_id (stop (answering (Ok live_service) (Err (OtherError "ConnectionError")) (Ok []))
                   alice started).2 = "k3x9q0v7m2".
Proof.
  destruct (stop_unhandled
              (answering (Ok live_service) (Err (OtherError "ConnectionError")) (Ok []))
              alice started (OtherError "ConnectionError") eq_refl eq_refl)
    as (H1 & H2 & _).
  by split.
Defined.

(** A running task next to two rejected ones. *)
Lemma poll_tasks_verdict_witness :
  (poll_tasks (answering (Ok live_service) (Ok true) (Ok [])) alice
     [task_in "rejected"; task_in "running"; task_in "rejected"] started).1 = Ret PNone
  /\ count_events is_removal
       (trace (poll_tasks (answering (Ok live_service) (Ok true) (Ok [])) alice
                 [task_in "rejected"; task_in "running"; task_in "rejected"] started).2) = 2.
Proof.
  destruct (poll_tasks_verdict (answering (Ok live_service) (Ok true) (Ok [])) alice
              [task_in "rejected"; task_in "running"; task_in "rejected"] started)
    as (H1 & H2 & _).
  - intros tr name. by exists true.
  - split; [exact H1|exact H2].
Defined.

(** X9: what [get_state] hands over, [load_state] takes back: the identifier
    is restored in any spawner, and nothing else of it changes; a state
    without the key, such as the one of a stopped spawner, clears it. *)
Theorem state_round_trip (w w0 : world) :
  (load_state (get_state w) w0).1 = Ret tt
  /\ service_id (load_state (get_state w) w0).2 = service_id w
  /\ api_token (load_state (get_state w) w0).2 = api_token w0
  /\ store (load_state (get_state w) w0).2 = store w0
  /\ trace (load_state (get_state w) w0).2 = trace w0
  /\ service_id (load_state [] w0).2 = "".
Proof.
  unfold get_state, load_state. destruct (String.eqb_spec (service_id w) "") as [Heq|Hne].
  - simpl. by rewrite Heq.
  - simpl. done.
Qed.

(** ** More of the readiness loop *)

Section readiness_more.
Variable orch : orchestrator.
Variable self : spawner.
Variable max_attempts : Z.

(** The [for] loop only logs. *)
Lemma wait_scan_logs attempt tasks : forall running preparing w,
  exists logs,
    trace (wait_scan self max_attempts attempt tasks running preparing w).2 = trace w ++ logs
    /\ forallb is_log logs = true.
Proof.
  induction tasks as [|t tasks IH]; intros running preparing w.
  - exists []. by rewrite app_nil_r.
  - cbn [wait_scan]. unfold bind, log, modify. cbn [fst snd].
    set (w1 := add_event _ w).
    destruct (String.eqb (task_state t) "rejected" || (max_attempts <? attempt)%Z).
    + eexists [_]. done.
    + destruct (IH (if String.eqb (task_state t) "running" then true else running)
                   (if String.eqb (task_state t) "preparing" then true else preparing) w1)
        as (logs & -> & Hlogs).
      eexists (_ :: logs). unfold w1. simpl. by rewrite <- app_assoc.
Qed.

Lemma wait_iteration_eq attempt w tasks :
  list_tasks orch (trace w) (service_name self) = Ok tasks ->
  wait_iteration orch self max_attempts (false, attempt) w
  = match wait_scan self max_attempts attempt tasks false false
            (add_event (ECall (Tasks (service_name self))) w) with
    | (Ret (inl v), w2) => (Ret (inl v), w2)
    | (Ret (inr (running, preparing)), w2) =>
        (Ret (inr (running, if preparing : bool then attempt else (attempt + 1)%Z)),
         add_event (ESleep 1) w2)
    | (Raise e, w2) => (Raise e, w2)
    | (OutOfFuel, w2) => (OutOfFuel, w2)
    end.
Proof.
  intros Hreply. unfold wait_iteration, bind, remote. rewrite Hreply.
  by destruct (wait_scan _ _ _ _ _ _ _) as [[[v|[r p]]| |] w2].
Qed.

(** One turn from a list that the orchestrator returns. *)
Lemma wait_iteration_turn attempt w tasks :
  list_tasks orch (trace w) (service_name self) = Ok tasks ->
  exists logs w',
    forallb is_log logs = true
    /\ ((wait_iteration orch self max_attempts (false, attempt) w
         = (Ret (inl (PBool false)), w')
         /\ trace w' = trace w ++ ECall (Tasks (service_name self)) :: logs
         /\ (has_state "rejected" tasks = true
             \/ ((max_attempts < attempt)%Z /\ tasks <> [])))
        \/ (wait_iteration orch self max_attempts (false, attempt) w
            = (Ret (inr (has_state "running" tasks,
                         if has_state "preparing" tasks then attempt else (attempt + 1)%Z)),
               w')
            /\ trace w' = trace w ++ ECall (Tasks (service_name self)) :: logs ++ [ESleep 1]
            /\ has_state "rejected" tasks = false
            /\ (tasks = [] \/ (attempt <= max_attempts)%Z))).
Proof.
  intros Hreply. rewrite (wait_iteration_eq attempt w tasks Hreply).
  set (w1 := add_event _ w).
  destruct (wait_scan_logs attempt tasks false false w1) as (logs & Htr & Hlogs).
  destruct (wait_scan_spec self max_attempts attempt tasks false false w1)
    as (w2 & _ & _ & _ & [[Hrun Hwhy]|(Hrun & Hnorej & Hbound)]);
    rewrite Hrun in *; cbn [fst snd] in Htr.
  - exists logs, w2. split; [done|]. left. split_and!; [done| |done].
    rewrite Htr. unfold w1. simpl. by rewrite <- app_assoc.
  - exists logs. eexists. split; [done|]. right. cbn [orb].
    split_and!; [reflexivity| |done..].
    simpl. rewrite Htr. unfold w1. simpl. by rewrite <- !app_assoc.
Qed.

Lemma wait_loop_values fuel : forall st w,
  match (wait_loop orch self max_attempts fuel st w).1 with
  | Ret (inl v) => v = PNone \/ v = PBool false
  | _ => True
  end.
Proof.
  induction fuel as [|fuel IH]; intros [running attempt] w; [done|].
  cbn [wait_loop]. unfold bind at 1, wait_iteration.
  destruct running; [by left|].
  unfold bind at 1, remote.
  destruct (list_tasks orch (trace w) (service_name self)) as [tasks|e]; [|done].
  set (w1 := add_event _ w). unfold bind at 1.
  destruct (wait_scan_spec self max_attempts attempt tasks false false w1)
    as (w2 & _ & _ & _ & [[-> _]|(-> & _)]).
  - by right.
  - unfold bind at 1, sleep, modify, ret. cbn [fst snd]. apply IH.
Qed.

(** X10: [wait_for_running_tasks] never returns True: whatever the
    orchestrator answers and however long the loop runs, a value it returns
    is None or False. *)
Theorem wait_never_returns_true (fuel : nat) (w : world) :
  match (wait_for_running_tasks orch self max_attempts fuel w).1 with
  | Ret v => v = PNone \/ v = PBool false
  | _ => True
  end.
Proof.
  unfold wait_for_running_tasks, bind.
  pose proof (wait_loop_values fuel (false, 0%Z) w) as Hloop.
  destruct (wait_loop orch self max_attempts fuel (false, 0%Z) w) as [[[v|st]| |] w'];
    done.
Qed.

Lemma wait_first_turn fuel w :
  wait_for_running_tasks orch self max_attempts (S fuel) w
  = match wait_iteration orch self max_attempts (false, 0%Z) w with
    | (Ret (inl v), w1) => (Ret v, w1)
    | (Ret (inr st), w1) =>
        match wait_loop orch self max_attempts fuel st w1 with
        | (Ret (inl v), w2) => (Ret v, w2)
        | (Ret (inr _), w2) => (OutOfFuel, w2)
        | (Raise e, w2) => (Raise e, w2)
        | (OutOfFuel, w2) => (OutOfFuel, w2)
        end
    | (Raise e, w1) => (Raise e, w1)
    | (OutOfFuel, w1) => (OutOfFuel, w1)
    end.
Proof.
  unfold wait_for_running_tasks. cbn [wait_loop]. unfold bind.
  destruct (wait_iteration _ _ _ _ _) as [[[v|st]| |] w1]; try done.
  by destruct (wait_loop _ _ _ _ _ _) as [[[v|st']| |] w2].
Qed.

(** X11: a rejected task in the first list makes the method return False
    in that turn, whatever else the list holds (a running task included) and
    whatever the bound: one remote call, no sleep. *)
Theorem wait_rejected_at_once (fuel : nat) (w : world) (tasks : list task) :
  list_tasks orch (trace w) (service_name self) = Ok tasks ->
  has_state "rejected" tasks = true ->
  (wait_for_running_tasks orch self max_attempts (S fuel) w).1 = Ret (PBool false)
  /\ count_events is_call
       (trace (wait_for_running_tasks orch self max_attempts (S fuel) w).2)
     = S (count_events is_call (trace w))
  /\ count_events is_sleep
       (trace (wait_for_running_tasks orch self max_attempts (S fuel) w).2)
     = count_events is_sleep (trace w).
Proof.
  intros Hreply Hrej. rewrite wait_first_turn.
  destruct (wait_iteration_turn 0 w tasks Hreply)
    as (logs & w' & Hlogs & [(-> & Htr & _)|(_ & _ & Hno & _)]); [|congruence].
  cbn [fst snd]. rewrite Htr.
  change (?a :: logs) with ([a] ++ logs).
  rewrite !count_events_app, !(count_events_logs _ logs) by done.
  unfold count_events. simpl. split_and!; [done|lia|lia].
Qed.

(** X12: a running task in the first list, and no rejected one: the
    method finishes the turn, sleep included, and returns None on the next
    test of the loop (bound not negative, two turns of fuel). *)
Theorem wait_running_returns_none (fuel : nat) (w : world) (tasks : list task) :
  (0 <= max_attempts)%Z ->
  list_tasks orch (trace w) (service_name self) = Ok tasks ->
  has_state "running" tasks = true -> has_state "rejected" tasks = false ->
  (wait_for_running_tasks orch self max_attempts (S (S fuel)) w).1 = Ret PNone
  /\ count_events is_call
       (trace (wait_for_running_tasks orch self max_attempts (S (S fuel)) w).2)
     = S (count_events is_call (trace w))
  /\ count_events is_sleep
       (trace (wait_for_running_tasks orch self max_attempts (S (S fuel)) w).2)
     = S (count_events is_sleep (trace w)).
Proof.
  intros Hmax Hreply Hrun Hrej. rewrite wait_first_turn.
  destruct (wait_iteration_turn 0 w tasks Hreply)
    as (logs & w' & Hlogs & [(_ & _ & [Hyes|[Hlt _]])|(-> & Htr & _)]);
    [congruence|lia|].
  rewrite Hrun. cbn [wait_loop wait_iteration]. unfold bind, ret. cbn [fst snd]. rewrite Htr.
  change (?a :: logs ++ ?s) with ([a] ++ logs ++ s).
  rewrite !count_events_app, !(count_events_logs _ logs) by done.
  unfold count_events. simpl. split_and!; [done|lia|lia].
Qed.
Lemma wait_loop_S fuel st w :
  wait_loop orch self max_attempts (S fuel) st w
  = match wait_iteration orch self max_attempts st w with
    | (Ret (inl v), w1) => (Ret (inl v), w1)
    | (Ret (inr st'), w1) => wait_loop orch self max_attempts fuel st' w1
    | (Raise e, w1) => (Raise e, w1)
    | (OutOfFuel, w1) => (OutOfFuel, w1)
    end.
Proof.
  cbn [wait_loop]. unfold bind.
  by destruct (wait_iteration _ _ _ _ _) as [[[v|st']| |] w1].
Qed.

(** Lists of tasks that are neither running, preparing nor rejected: the
    loop goes on until the counter is above the bound. *)
Lemma wait_loop_stalled :
  (forall tr name, exists tasks,
      list_tasks orch tr name = Ok tasks /\ tasks <> []
      /\ has_state "running" tasks = false /\ has_state "preparing" tasks = false
      /\ has_state "rejected" tasks = false) ->
  forall turns attempt fuel w,
    turns = Z.to_nat (max_attempts + 1 - attempt) ->
    (attempt <= max_attempts + 1)%Z -> turns < fuel ->
    exists w',
      wait_loop orch self max_attempts fuel (false, attempt) w = (Ret (inl (PBool false)), w')
      /\ count_events is_call (trace w') = count_events is_call (trace w) + turns + 1
      /\ count_events is_sleep (trace w') = count_events is_sleep (trace w) + turns.
Proof.
  intros Hstalled. induction turns as [|turns IH]; intros attempt fuel w Hturns Hle Hfuel;
    (destruct fuel as [|fuel]; [lia|]); rewrite wait_loop_S;
    destruct (Hstalled (trace w) (service_name self))
      as (tasks & Hreply & Hne & Hrun & Hprep & Hrej);
    destruct (wait_iteration_turn attempt w tasks Hreply)
      as (logs & w1 & Hlogs & [(-> & Htr & Hwhy)|(-> & Htr & _ & Hbound)]).
  - exists w1. split; [done|]. rewrite Htr.
    change (?a :: logs) with ([a] ++ logs).
    rewrite !count_events_app, !(count_events_logs _ logs) by done.
    unfold count_events. simpl. lia.
  - destruct Hbound as [?|?]; [done|lia].
  - destruct Hwhy as [?|[? _]]; [congruence|lia].
  - rewrite Hrun, Hprep.
    destruct (IH (attempt + 1)%Z fuel w1) as (w' & -> & Hcalls & Hsleeps); [lia..|].
    exists w'. split; [done|]. rewrite Hcalls, Hsleeps, Htr.
    change (?a :: logs ++ ?s) with ([a] ++ logs ++ s).
    rewrite !count_events_app, !(count_events_logs _ logs) by done.
    unfold count_events. simpl. lia.
Qed.

(** X13: lists that are never empty and hold no running, preparing or
    rejected task: the method returns False in the turn in which the counter
    is above the bound, which is turn [max_attempts + 2]: it has then listed
    the tasks [max_attempts + 2] times and slept [max_attempts + 1] times. *)
Theorem wait_gives_up_after_bound (fuel : nat) (w : world) :
  (0 <= max_attempts)%Z ->
  (forall tr name, exists tasks,
      list_tasks orch tr name = Ok tasks /\ tasks <> []
      /\ has_state "running" tasks = false /\ has_state "preparing" tasks = false
      /\ has_state "rejected" tasks = false) ->
  Z.to_nat max_attempts + 2 <= fuel ->
  (wait_for_running_tasks orch self max_attempts fuel w).1 = Ret (PBool false)
  /\ count_events is_call (trace (wait_for_running_tasks orch self max_attempts fuel w).2)
     = count_events is_call (trace w) + Z.to_nat max_attempts + 2
  /\ count_events is_sleep (trace (wait_for_running_tasks orch self max_attempts fuel w).2)
     = count_events is_sleep (trace w) + Z.to_nat max_attempts + 1.
Proof.
  intros Hmax Hstalled Hfuel.
  destruct (wait_loop_stalled Hstalled (Z.to_nat max_attempts + 1) 0%Z fuel w)
    as (w' & Hloop & Hcalls & Hsleeps); [lia..|].
  assert (wait_for_running_tasks orch self max_attempts fuel w = (Ret (PBool false), w'))
    as -> by (unfold wait_for_running_tasks, bind; by rewrite Hloop).
  cbn [fst snd]. split_and!; [done|lia|lia].
Qed.
End readiness_more.

(** A rejected task next to a running one. *)
Lemma wait_rejected_at_once_witness :
  (wait_for_running_tasks
     (answering (Ok live_service) (Ok true) (Ok [task_in "running"; task_in "rejected"]))
     alice 20 1 fresh).1 = Ret (PBool false).
Proof.
  apply (wait_rejected_at_once
           (answering (Ok live_service) (Ok true) (Ok [task_in "running"; task_in "rejected"]))
           alice 20 0 fresh [task_in "running"; task_in "rejected"]); reflexivity.
Defined.

(** A running task next to a preparing one. *)
Lemma wait_running_returns_none_witness :
  (wait_for_running_tasks
     (answering (Ok live_service) (Ok true) (Ok [task_in "preparing"; task_in "running"]))
     alice 20 2 fresh).1 = Ret PNone.
Proof.
  apply (wait_running_returns_none
           (answering (Ok live_service) (Ok true) (Ok [task_in "preparing"; task_in "running"]))
           alice 20 0 fresh [task_in "preparing"; task_in "running"]);
    [lia|reflexivity..].
Defined.

(** Tasks that stay pending, with the bound 20: twenty-two calls. *)
Lemma wait_gives_up_after_bound_witness :
  (wait_for_running_tasks (answering (Ok live_service) (Ok true) (Ok [task_in "pending"]))
     alice 20 30 fresh).1 = Ret (PBool false)
  /\ count_events is_call
       (trace (wait_for_running_tasks
                 (answering (Ok live_service) (Ok true) (Ok [task_in "pending"]))
                 alice 20 30 fresh).2) = 22
  /\ count_events is_sleep
       (trace (wait_for_running_tasks
                 (answering (Ok live_service) (Ok true) (Ok [task_in "pending"]))
                 alice 20 30 fresh).2) = 21.
Proof.
  apply (wait_gives_up_after_bound
           (answering (Ok live_service) (Ok true) (Ok [task_in "pending"])) alice 20 30 fresh).
  - lia.
  - intros tr name. exists [task_in "pending"]. by split_and!.
  - simpl. lia.
Defined.

(** ** More of the build *)

Section building_more.
Variable self : spawner.

(** X14: the build makes no remote call, writes no log and does not sleep;
    it leaves the identifier and the token as they are; and it has no loop,
    so it returns or raises. *)
Theorem get_service_config_frame (w : world) :
  trace (get_service_config self w).2 = trace w
  /\ service_id (get_service_config self w).2 = service_id w
  /\ api_token (get_service_config self w).2 = api_token w
  /\ (get_service_config self w).1 <> OutOfFuel.
Proof.
  destruct (get_service_config_store_only self w) as (Htr & Hid & Htok).
  split_and!; [done..|]. apply loop_free_get_service_config.
Qed.

(** X15: with a default configuration that is not empty the build cannot
    succeed: it raises NameError for the bare name [default_config], before
    any profile is looked at, and changes nothing. *)
Theorem get_service_config_needs_empty_default (w : world) :
  default_config self <> [] ->
  get_service_config self w = (Raise (NameError "default_config"), w).
Proof.
  intros Hne. apply get_service_config_default_config. by destruct (default_config self).
Qed.

Lemma merge_layers_world w : (merge_layers self w).2 = w.
Proof.
  unfold merge_layers, bind at 1, gets. cbv zeta. unfold bind at 1.
  match goal with |- context [(if nonempty (default_config self) then ?a else ?b) w] =>
    assert (((if nonempty (default_config self) then a else b) w).2 = w) as Hdefault end.
  { destruct (nonempty (default_config self)); [|done].
    unfold bind. simpl. done. }
  match goal with |- context [(if nonempty (default_config self) then ?a else ?b) w] =>
    destruct ((if nonempty (default_config self) then a else b) w) as [[config| |] w0] end;
    simpl in Hdefault; subst w0; [|done..].
  destruct (nonempty (user_options self)); [|done].
  unfold bind, lift. by destruct (_update_config _ _).
Qed.

Lemma mapM_strings xs : forall w,
  forallb is_string xs = true -> (mapM (_format_mount self) xs w).2 = w.
Proof.
  induction xs as [|x xs IH]; intros w; [done|].
  simpl. rewrite andb_true_iff. intros [Hx Hxs]. destruct x; try done.
  cbn [_format_mount]. unfold bind at 1 2, lift.
  destruct (format_string self s); [|done].
  cbn [ret fst snd]. unfold ret at 1. unfold bind at 1.
  specialize (IH w Hxs). by destruct (mapM (_format_mount self) xs w) as [[ys| |] w'].
Qed.

(** X16: when the merged configuration has no mounts, or mounts that are
    all strings, the build changes nothing at all: the world after it is the
    world before it. *)
Theorem get_service_config_pure_on_strings (w : world) merged w1 :
  merge_layers self w = (Ret merged, w1) ->
  string_mounts merged.1 = true ->
  (get_service_config self w).2 = w.
Proof.
  intros Hmerge Hstrings. pose proof (merge_layers_world w) as Hw.
  rewrite Hmerge in Hw. simpl in Hw. subst w1.
  unfold get_service_config, bind at 1. rewrite Hmerge. unfold bind at 1.
  unfold add_labels, string_mounts in *.
  assert (forall labels,
    (format_mounts self (assoc_set "labels" labels merged.1) w).2 = w) as Hfmt.
  { intros labels. unfold format_mounts. rewrite assoc_get_set_ne by done.
    destruct (assoc_get "mounts" merged.1) as [[[]|]|]; try done.
    destruct (nonempty xs); [|done]. unfold bind.
    pose proof (mapM_strings xs w Hstrings) as Hxs.
    by destruct (mapM (_format_mount self) xs w) as [[ys| |] w']. }
  destruct (assoc_get "labels" merged.1) as [[v|old]|]; [done|apply Hfmt..].
Qed.

(** [_format_mount] on a dictionary whose target formats. *)
Lemma format_mount_target l w target target' :
  assoc_get "target" (store_get l w) = Some (PStr target) ->
  format_string self target = Ok target' ->
  _format_mount self (PRef l) w
  = (let w1 := set_store (<[l := assoc_set "target" (PStr target') (store_get l w)]> (store w)) w in
     (let! source := getitem l "source" in
      let! source := format_value self source in
      setitem l "source" source ;!
      ret (PRef l)) w1).
Proof.
  intros Hget Hfmt. cbn [_format_mount]. unfold bind at 1, getitem at 1, bind at 1, gets.
  cbn [fst snd]. rewrite Hget. unfold ret at 1. unfold bind at 1.
  cbn [format_value]. unfold bind at 1, lift. rewrite Hfmt. unfold ret at 1 2.
  unfold bind at 1, setitem at 1, modify. done.
Qed.

Lemma store_get_insert l l' r w :
  l < length (store w) ->
  store_get l' (set_store (<[l := r]> (store w)) w)
  = if decide (l' = l) then r else store_get l' w.
Proof.
  intros Hl. unfold store_get. simpl. destruct (decide (l' = l)) as [->|Hne].
  - by rewrite list_lookup_insert_eq.
  - by rewrite list_lookup_insert_ne.
Qed.

Lemma format_mount_written l w target source target' source' :
  l < length (store w) ->
  assoc_get "target" (store_get l w) = Some (PStr target) ->
  assoc_get "source" (store_get l w) = Some (PStr source) ->
  format_string self target = Ok target' ->
  format_string self source = Ok source' ->
  _format_mount self (PRef l) w
  = (let w1 := set_store (<[l := assoc_set "target" (PStr target') (store_get l w)]> (store w)) w in
     (Ret (PRef l),
      set_store (<[l := assoc_set "source" (PStr source') (store_get l w1)]> (store w1)) w1)).
Proof.
  intros Hl Htarget Hsource Hft Hfs.
  rewrite (format_mount_target l w target target' Htarget Hft). cbv zeta.
  set (w1 := set_store _ w).
  assert (store_get l w1 = assoc_set "target" (PStr target') (store_get l w)) as Hw1.
  { unfold w1. rewrite store_get_insert by done. by rewrite decide_True. }
  unfold bind at 1, getitem at 1, bind at 1, gets. cbn [fst snd].
  rewrite Hw1, assoc_get_set_ne, Hsource by done. unfold ret at 1. unfold bind at 1.
  cbn [format_value]. unfold bind at 1, lift. rewrite Hfs. unfold ret at 1 2.
  unfold bind at 1, setitem at 1, modify. unfold ret. cbn [fst snd]. by rewrite Hw1.
Qed.

(** X17: a mount descriptor that is a dictionary is rewritten where it
    lies.  When its target and source are strings whose templates format,
    [_format_mount] returns the reference it was given, the dictionary holds
    the two formatted values and its other keys as before, and no other
    dictionary of the store changes. *)
Theorem format_mount_in_place l w target source target' source' :
  l < length (store w) ->
  assoc_get "target" (store_get l w) = Some (PStr target) ->
  assoc_get "source" (store_get l w) = Some (PStr source) ->
  format_string self target = Ok target' ->
  format_string self source = Ok source' ->
  (_format_mount self (PRef l) w).1 = Ret (PRef l)
  /\ store_get l (_format_mount self (PRef l) w).2
     = assoc_set "source" (PStr source') (assoc_set "target" (PStr target') (store_get l w))
  /\ (forall key, key <> "target" -> key <> "source" ->
        assoc_get key (store_get l (_format_mount self (PRef l) w).2)
        = assoc_get key (store_get l w))
  /\ (forall l', l' <> l ->
        store_get l' (_format_mount self (PRef l) w).2 = store_get l' w).
Proof.
  intros Hl Htarget Hsource Hft Hfs.
  rewrite (format_mount_written l w target source target' source') by done.
  cbn [fst snd].
  set (w1 := set_store _ w).
  assert (store_get l w1 = assoc_set "target" (PStr target') (store_get l w)) as Hw1.
  { unfold w1. rewrite store_get_insert by done. by rewrite decide_True. }
  assert (l < length (store w1)) as Hl1 by (unfold w1; simpl; by rewrite length_insert).
  split_and!; [done|..].
  - rewrite store_get_insert by done. by rewrite decide_True, Hw1.
  - intros key Hk1 Hk2. rewrite store_get_insert by done. rewrite decide_True by done.
    by rewrite Hw1, !assoc_get_set_ne.
  - intros l' Hne. rewrite store_get_insert by done. rewrite decide_False by done.
    unfold w1. rewrite store_get_insert by done. by rewrite decide_False.
Qed.

(** X18: the rewriting is not undone by a failure.  When the target
    formats but the source is missing, is no string, or has a template that
    fails, [_format_mount] raises that error and the dictionary is left with
    its new target and its old source. *)
Theorem format_mount_half_written l w target target' e :
  l < length (store w) ->
  assoc_get "target" (store_get l w) = Some (PStr target) ->
  format_string self target = Ok target' ->
  source_error self (store_get l w) = Some e ->
  (_format_mount self (PRef l) w).1 = Raise e
  /\ store_get l (_format_mount self (PRef l) w).2
     = assoc_set "target" (PStr target') (store_get l w).
Proof.
  intros Hl Htarget Hft Herr.
  assert (_format_mount self (PRef l) w
          = (Raise e, set_store (<[l := assoc_set "target" (PStr target') (store_get l w)]>
                                   (store w)) w)) as ->.
  { rewrite (format_mount_target l w target target' Htarget Hft). cbv zeta.
    set (w1 := set_store _ w).
    assert (store_get l w1 = assoc_set "target" (PStr target') (store_get l w)) as Hw1.
    { unfold w1. rewrite store_get_insert by done. by rewrite decide_True. }
    unfold source_error in Herr.
    unfold bind at 1, getitem at 1, bind at 1, gets. cbn [fst snd].
    rewrite Hw1, assoc_get_set_ne by done.
    destruct (assoc_get "source" (store_get l w)) as [v|].
    - unfold ret at 1. unfold bind at 1.
      destruct v; try (by injection Herr as <-).
      cbn [format_value]. unfold bind at 1, lift.
      destruct (format_string self s); [done|]. by injection Herr as <-.
    - by injection Herr as <-. }
  cbn [fst snd]. split; [done|]. rewrite store_get_insert by done. by rewrite decide_True.
Qed.
End building_more.

(** The default configuration that the class ships. *)
Lemma get_service_config_needs_empty_default_witness :
  get_service_config alice_with_defaults fresh = (Raise (NameError "default_config"), fresh).
Proof. by apply (get_service_config_needs_empty_default alice_with_defaults fresh). Defined.

(** A profile with one string mount. *)
Lemma get_service_config_pure_on_strings_witness :
  (get_service_config (spawner_of "alice" [] bind_profile) fresh).2 = fresh.
Proof.
  destruct (merge_layers (spawner_of "alice" [] bind_profile) fresh) as [r w1] eqn:Hmerge.
  assert (exists merged, r = Ret merged /\ string_mounts merged.1 = true) as (merged & -> & Hs).
  { vm_compute in Hmerge. injection Hmerge as <- _. by eexists. }
  exact (get_service_config_pure_on_strings _ fresh merged w1 Hmerge Hs).
Defined.

(** The descriptor of the profile, formatted for alice. *)
Lemma format_mount_in_place_witness :
  (_format_mount alice (PRef 0) fresh).1 = Ret (PRef 0)
  /\ store_get 0 (_format_mount alice (PRef 0) fresh).2
     = [ ("target", PStr "/home/alice"); ("source", PStr "vol-alice") ].
Proof.
  destruct (format_mount_in_place alice 0 fresh "/home/{username}" "vol-{username}"
              "/home/alice" "vol-alice") as (H1 & H2 & _); [simpl; lia|reflexivity..|].
  split; [exact H1|exact H2].
Defined.

(** A source that names a field the namespace lacks. *)
Lemma format_mount_half_written_witness :
  (_format_mount alice (PRef 0) (world_of "" "" [broken_mount])).1 = Raise (KeyError "group")
  /\ store_get 0 (_format_mount alice (PRef 0) (world_of "" "" [broken_mount])).2
     = [ ("target", PStr "/home/alice"); ("source", PStr "vol-{group}");
         ("type", PStr "volume") ].
Proof.
  apply (format_mount_half_written alice 0 (world_of "" "" [broken_mount])
           "/home/{username}" "/home/alice" (KeyError "group"));
    [simpl; lia|reflexivity..].
Defined.

(** ** The profile's lists and the spawner's *)

Lemma update_config_lookup b o r k v1 :
  NoDup (flatten_items [] o).*1 ->
  _update_config (Node b) (Node o) = Ok r ->
  (k, v1) ∈ flatten_items [] o ->
  lookup_path k (Node r)
  = Some (Leaf (merge_value v1 (assoc_get k (flatten_items [] b)))).
Proof.
  intros Hnd Hrun Hin. unfold _update_config in Hrun. simpl in Hrun.
  destruct (lists_meet_lists (flatten_items [] b) (flatten_items [] o)) eqn:Hmeet.
  - destruct (update_items_ok _ _ Hnd Hmeet) as (config' & Hloop & _ & _ & _ & Hupd).
    rewrite Hloop in Hrun. simpl in Hrun.
    eapply unflatten_into_leaves; [exact Hrun|].
    apply assoc_get_elem. by apply Hupd.
  - destruct (lists_meet_lists_false _ _ Hmeet) as (k' & l1 & v2 & Hin' & Hget & Hv2).
    by rewrite (update_items_mismatch k' l1 _ _ v2) in Hrun.
Qed.

Lemma flatten_items_leaf k v d :
  assoc_get k d = Some (Leaf v) -> ([k], v) ∈ flatten_items [] d.
Proof.
  unfold flatten_items. induction d as [|[k' t] d IH]; simpl; [done|].
  destruct (decide (k = k')) as [->|Hne].
  - intros [= ->]. apply elem_of_app. left. simpl. by left.
  - intros Hget. apply elem_of_app. right. by apply IH.
Qed.

Section profile_lists.
Variable self : spawner.

(** What the two last steps of the build leave alone. *)
Lemma build_keeps_other_keys w merged w1 config w' key :
  merge_layers self w = (Ret merged, w1) ->
  get_service_config self w = (Ret config, w') ->
  key <> "labels" -> key <> "mounts" ->
  assoc_get key config = assoc_get key merged.1.
Proof.
  intros Hmerge Hrun Hk1 Hk2. unfold get_service_config, bind at 1 in Hrun.
  rewrite Hmerge in Hrun. unfold bind in Hrun.
  destruct (add_labels self merged.2 merged.1 w1) as [[labelled| |] w2] eqn:Hlab; [|done..].
  assert (assoc_get key labelled = assoc_get key merged.1) as <-.
  { unfold add_labels in Hlab.
    destruct (assoc_get "labels" merged.1) as [[v|old]|]; [done|..];
      injection Hlab as <- _; by rewrite assoc_get_set_ne. }
  revert Hrun. unfold format_mounts, bind, gets, ret, raise.
  repeat case_match; intros; simplify_eq; try done; by rewrite assoc_get_set_ne.
Qed.

(** The merge of the profile into the base that the spawner makes. *)
Lemma merge_layers_profile w merged w1 pconf :
  default_config self = [] ->
  assoc_get "config" (user_options self) = Some (Node pconf) ->
  merge_layers self w = (Ret merged, w1) ->
  exists base,
    _update_config (Node base) (Node pconf) = Ok merged.1
    /\ assoc_get ["command"] (flatten_items [] base) = Some (PList (PStr <$> cmd self))
    /\ assoc_get ["env"] (flatten_items [] base)
       = Some (PList ((fun '(k, v) => PStr (k +:+ "=" +:+ v))
                        <$> get_env self (api_token w))).
Proof.
  intros Hdefault Hconfig. unfold merge_layers, bind at 1, gets. cbv zeta.
  rewrite Hdefault. cbn [nonempty]. unfold bind at 1, ret at 1.
  destruct (user_options self) as [|item items] eqn:Hopts; [done|].
  cbn [nonempty]. rewrite Hconfig.
  change (default (Node []) (Some (Node pconf))) with (Node pconf).
  unfold bind, lift, ret, raise.
  match goal with |- context [_update_config (Node ?b) _] => set (base := b) end.
  destruct (_update_config (Node base) (Node pconf)) as [r|] eqn:Hmerge; [|done].
  intros [= <- _]. exists base. split; [done|].
  unfold base. by destruct (nonempty _).
Qed.

(** X19: a list that the profile gives for the command or for the
    environment does not replace the spawner's: in the configuration that the
    build returns it stands in front of the spawner's own entries (default
    configuration empty, profile's config with distinct keys). *)
Theorem profile_lists_go_first w pconf config w' :
  default_config self = [] ->
  assoc_get "config" (user_options self) = Some (Node pconf) ->
  wf_tree (Node pconf) = true ->
  get_service_config self w = (Ret config, w') ->
  (forall pcmd, assoc_get "command" pconf = Some (Leaf (PList pcmd)) ->
      assoc_get "command" config = Some (Leaf (PList (pcmd ++ (PStr <$> cmd self)))))
  /\ (forall penv, assoc_get "env" pconf = Some (Leaf (PList penv)) ->
      assoc_get "env" config
      = Some (Leaf (PList (penv ++ ((fun '(k, v) => PStr (k +:+ "=" +:+ v))
                                      <$> get_env self (api_token w)))))).
Proof.
  intros Hdefault Hconfig Hwf Hrun.
  destruct (merge_layers self w) as [[merged| |] w1] eqn:Hmerge;
    [|by unfold get_service_config, bind in Hrun; rewrite Hmerge in Hrun..].
  destruct (merge_layers_profile w merged w1 pconf Hdefault Hconfig Hmerge)
    as (base & Hupd & Hcmd & Henv).
  pose proof (flatten_items_NoDup _ Hwf) as Hnd.
  assert (forall key, assoc_get key merged.1 = lookup_path [key] (Node merged.1)) as Hpath.
  { intros key. simpl. by destruct (assoc_get key merged.1). }
  split.
  - intros pcmd Hp.
    rewrite (build_keeps_other_keys w merged w1 config w' "command") by done.
    rewrite Hpath.
    rewrite (update_config_lookup base pconf merged.1 ["command"] (PList pcmd));
      [|done..|by apply flatten_items_leaf].
    unfold path. by rewrite Hcmd.
  - intros penv Hp.
    rewrite (build_keeps_other_keys w merged w1 config w' "env") by done.
    rewrite Hpath.
    rewrite (update_config_lookup base pconf merged.1 ["env"] (PList penv));
      [|done..|by apply flatten_items_leaf].
    unfold path. by rewrite Henv.
Qed.
End profile_lists.

(** A profile that means to start JupyterLab. *)
Lemma profile_lists_go_first_witness :
  exists config w',
    get_service_config (spawner_of "alice" [] lab_profile) fresh = (Ret config, w')
    /\ assoc_get "command" config
       = Some (Leaf (PList [PStr "jupyter-labhub"; PStr "jupyterhub-singleuser"]))
    /\ assoc_get "env" config
       = Some (Leaf (PList [PStr "JUPYTER_ENABLE_LAB=1"; PStr "JUPYTERHUB_API_TOKEN=";
                            PStr "JPY_API_TOKEN="])).
Proof.
  destruct (get_service_config (spawner_of "alice" [] lab_profile) fresh) as [r w'] eqn:Hrun.
  assert (exists config, r = Ret config) as [config ->]
    by (vm_compute in Hrun; injection Hrun as <- _; by eexists).
  destruct (profile_lists_go_first (spawner_of "alice" [] lab_profile) fresh
              [ ("command", Leaf (PList [PStr "jupyter-labhub"]));
                ("env", Leaf (PList [PStr "JUPYTER_ENABLE_LAB=1"])) ]
              config w' eq_refl eq_refl eq_refl Hrun) as [Hcmd Henv].
  exists config, w'. split; [done|]. split.
  - exact (Hcmd [PStr "jupyter-labhub"] eq_refl).
  - exact (Henv [PStr "JUPYTER_ENABLE_LAB=1"] eq_refl).
Defined.

(** ** The options form *)

(** X20: with at least one profile configured, [_options_form] returns no
    form, whatever the templates are: it raises, and when every option was
    formatted the exception is the NameError of [form_template]. *)
Theorem options_form_never_renders
    (profiles : list dict) (option_format : tree -> tree -> string -> res string)
    (template_format : string -> string -> res string) :
  profiles <> [] ->
  (exists e, _options_form profiles option_format template_format = Err e)
  /\ (forall options, format_options option_format 0 profiles = Ok options ->
        _options_form profiles option_format template_format
        = Err (NameError "form_template")).
Proof.
  intros Hsome. unfold _options_form.
  destruct profiles as [|prof profs]; [done|]. cbn [nonempty].
  split.
  - destruct (format_options option_format 0 (prof :: profs)) as [options|e];
      [by exists (NameError "form_template")|by exists e].
  - by intros options ->.
Qed.

(** One profile whose option is formatted. *)
Lemma options_form_never_renders_witness :
  _options_form [lab_profile] (fun _ _ selected => Ok ("<option " +:+ selected +:+ ">"))
    (fun template options => Ok options)
  = Err (NameError "form_template").
Proof.
  destruct (options_form_never_renders [lab_profile]
              (fun _ _ selected => Ok ("<option " +:+ selected +:+ ">"))
              (fun template options => Ok options)) as [_ Hname]; [done|].
  by apply (Hname ["<option selected>"]).
Defined.

(** ** The default name of the service *)

Lemma append_empty (s : string) : s +:+ "" = s.
Proof.
  induction s as [|c s IH]; [done|].
  change (String c s +:+ "") with (String c (s +:+ "")). by rewrite IH.
Qed.

(** X21: the default of [service_name] cannot be computed under a
    [format_string] that formats with a namespace without the key "prefix",
    as the one inherited from jupyterhub is: for a named server and for the
    default server alike, [_service_name] raises KeyError for "prefix". *)
Theorem service_name_default_raises (self : spawner) (ns : list (string * string)) :
  (forall s, format_string self s = template_format ns s) ->
  assoc_get "prefix" ns = None ->
  _service_name self = Err (KeyError "prefix").
Proof.
  intros Hformat Hprefix. unfold _service_name.
  destruct (negb _); rewrite Hformat; unfold template_format; simpl;
    cbv [String.append]; by rewrite Hprefix.
Qed.

(** The namespace of jupyterhub's [template_namespace]. *)
Lemma service_name_default_raises_witness :
  _service_name alice = Err (KeyError "prefix").
Proof.
  apply (service_name_default_raises alice [ ("username", "alice") ]);
    [intros s; reflexivity|reflexivity].
Defined.

(** X22: the namespace that [templete_namespace] builds would not do for a
    named server either.  Under a [format_string] that formats with it, the
    default server gets the name prefix-username, and a named server raises
    KeyError for "server": the namespace says "servername". *)
Theorem service_name_with_own_namespace
    (self : spawner) (name_prefix : string) (py_str : tree -> string) :
  (forall s, format_string self s
             = template_format (namespace_text py_str (templete_namespace name_prefix self)) s) ->
  _service_name self
  = if String.eqb (name self) "" then Ok (name_prefix +:+ "-" +:+ user_name self)
    else Err (KeyError "server").
Proof.
  intros Hformat. unfold _service_name.
  destruct (String.eqb (name self) ""); cbn [negb]; rewrite Hformat;
    unfold template_format; simpl.
  - by rewrite append_empty.
  - by cbv [String.append].
Qed.

(** The server "gpu" of alice. *)
Lemma service_name_with_own_namespace_witness :
  _service_name (named_server "alice" "gpu") = Err (KeyError "server").
Proof.
  apply (service_name_with_own_namespace (named_server "alice" "gpu") "jupyter" (fun _ => "")).
  intros s. reflexivity.
Defined.
